(** * Anker Solix config flow: device reconciliation and setup wizard

    Shallow embedding of [custom_components/anker_solix/config_flow.py]:
    the exclusion-set expansion and the device reconciliation routine
    [async_check_and_remove_devices], the two steps of the setup wizard
    ([async_step_user], [async_step_user_options]) and the options editor
    ([async_step_init]).

    Python dictionaries whose order never matters are [gmap]s, Python sets
    are [gset]s, the ordered mapping [obsolete_user_devs] is an association
    list, and the device registry and the configuration-entry store are
    lists in their iteration order. *)

From stdpp Require Import base strings pretty list gmap fin_maps sorting.

Open Scope string_scope.
Open Scope list_scope.

(* ===================================================================== *)
(** ** Python values *)
(* ===================================================================== *)

(** The values found in the dictionaries handled by the flow: form fields
    are strings, booleans, integers and lists of strings; a missing value
    is [VNone]. *)
Inductive PyVal :=
| VNone
| VBool (b : bool)
| VInt (z : Z)
| VStr (s : string)
| VList (l : list string).

#[global] Instance PyVal_eq_dec : EqDecision PyVal.
Proof. solve_decision. Defined.

Abbreviation PyDict := (gmap string PyVal).

(** Truth value of an object ([bool(v)]). *)
Definition truthy (v : PyVal) : bool :=
  match v with
  | VNone => false
  | VBool b => b
  | VInt z => negb (Z.eqb z 0)
  | VStr s => negb (String.eqb s "")
  | VList l => match l with [] => false | _ => true end
  end.

(** [a or b]. *)
Definition py_or (a b : PyVal) : PyVal := if truthy a then a else b.

(** [d.get(k)] and [d.get(k, default)]. *)
Definition dict_get (d : PyDict) (k : string) : PyVal := default VNone (d !! k).
Definition dict_get_default (d : PyDict) (k : string) (dflt : PyVal) : PyVal :=
  default dflt (d !! k).

(** Truth value of an optional dictionary ([if user_input:]): [None] and
    the empty dictionary are false. *)
Definition dict_truthy (d : option PyDict) : bool :=
  match d with
  | Some m => negb (bool_decide (m = ∅))
  | None => false
  end.

(** [type(v).__name__]. *)
Definition py_type_name (v : PyVal) : string :=
  match v with
  | VNone => "NoneType"
  | VBool _ => "bool"
  | VInt _ => "int"
  | VStr _ => "str"
  | VList _ => "list"
  end.

(** The parts of the Python runtime the development is parametric in:
    [str.lower] (Unicode aware in Python; only [''.lower() == ''] is used)
    and the [repr] of a list of strings. *)
Class PyRuntime := {
  str_lower : string → string;
  str_lower_empty : str_lower "" = "";
  list_repr : list string → string
}.

(* ===================================================================== *)
(** ** Constants imported by the module *)
(* ===================================================================== *)

(** Keys and literals imported from [homeassistant.const] and from the
    integration's [const.py]; the flow only uses them as dictionary keys
    and placeholder texts, so their values are parameters. *)
Class Const := {
  CONF_USERNAME : string;
  ACCEPT_TERMS : string;
  TERMS_LINK : string;
  TC_LINK : string;
  ERROR_DETAIL : string;
  SHARED_ACCOUNT : string;
  EXAMPLESFOLDER : string;
  TESTMODE : string;
  TESTFOLDER : string
}.

(** The category tags of [solixapi.api.ApiCategories] used by the
    reconciliation routine. *)
Class ApiCategories := {
  site_price : string;
  solarbank_energy : string;
  solarbank_cutoff : string;
  solarbank_fittings : string;
  solarbank_solar_info : string;
  device_auto_upgrade : string
}.

(** The [.value] of the members of [solixapi.api.SolixDeviceType] used by
    the reconciliation routine. *)
Class SolixDeviceType := {
  SYSTEM : string;
  SOLARBANK : string;
  INVERTER : string;
  PPS : string;
  POWERPANEL : string
}.

(** The eleven tags are pairwise different strings. *)
Definition tags_distinct {cats : ApiCategories} {types : SolixDeviceType} : Prop :=
  NoDup [ site_price; solarbank_energy; solarbank_cutoff; solarbank_fittings;
          solarbank_solar_info; device_auto_upgrade;
          SYSTEM; SOLARBANK; INVERTER; PPS; POWERPANEL ].

(** The values the integration ships with. *)
Definition upstream_const : Const := {|
  CONF_USERNAME := "username";
  ACCEPT_TERMS := "accept_terms";
  TERMS_LINK := "terms_link";
  TC_LINK := "https://github.com/thomluther/hacs-anker-solix/blob/main/README.md";
  ERROR_DETAIL := "error_detail";
  SHARED_ACCOUNT := "shared_account";
  EXAMPLESFOLDER := "examples";
  TESTMODE := "testmode";
  TESTFOLDER := "testfolder"
|}.

Definition upstream_categories : ApiCategories := {|
  site_price := "site_price";
  solarbank_energy := "solarbank_energy";
  solarbank_cutoff := "solarbank_cutoff";
  solarbank_fittings := "solarbank_fittings";
  solarbank_solar_info := "solarbank_solar_info";
  device_auto_upgrade := "device_auto_upgrade"
|}.

Definition upstream_types : SolixDeviceType := {|
  SYSTEM := "system";
  SOLARBANK := "solarbank";
  INVERTER := "inverter";
  PPS := "pps";
  POWERPANEL := "powerpanel"
|}.

(** ASCII lower-casing, the instance of [str.lower] used in examples. *)
Definition ascii_lower (c : Ascii.ascii) : Ascii.ascii :=
  let n := Ascii.nat_of_ascii c in
  if bool_decide (65 ≤ n ≤ 90)%nat then Ascii.ascii_of_nat (n + 32)%nat else c.

Fixpoint lower_ascii_string (s : string) : string :=
  match s with
  | EmptyString => EmptyString
  | String c r => String (ascii_lower c) (lower_ascii_string r)
  end.

Definition example_runtime : PyRuntime := {|
  str_lower := lower_ascii_string;
  str_lower_empty := eq_refl;
  list_repr := λ l, "[" +:+ String.concat ", " l +:+ "]"
|}.

(* ===================================================================== *)
(** ** Exclusion-set expansion (lines 356-384) *)
(* ===================================================================== *)

Section Expansion.
Context {cats : ApiCategories} {types : SolixDeviceType}.

(** The three literal sets the code intersects with [excluded]. *)
Definition system_subcategories : gset string :=
  {[ site_price; SOLARBANK; INVERTER; PPS; POWERPANEL ]}.
Definition solarbank_subcategories : gset string :=
  {[ solarbank_energy; solarbank_cutoff; solarbank_fittings;
     solarbank_solar_info ]}.
Definition device_subcategories : gset string := {[ device_auto_upgrade ]}.
Definition managed_device_types : gset string :=
  {[ SOLARBANK; INVERTER; PPS; POWERPANEL ]}.

(** Body of [if excluded:], the three rules in source order; each test
    reads the set as updated by the rules before it. *)
Definition expand_categories (excluded : gset string) : gset string :=
  let excluded :=
    if decide (system_subcategories ∩ excluded ≠ ∅)
    then excluded ∪ {[ SYSTEM ]} else excluded in
  let excluded :=
    if decide (solarbank_subcategories ∩ excluded ≠ ∅)
    then excluded ∪ {[ SOLARBANK ]} else excluded in
  let excluded :=
    if decide (device_subcategories ∩ excluded ≠ ∅)
    then excluded ∪ managed_device_types else excluded in
  excluded.

(** [excluded: set | None]; the rules run only for a non-empty set. *)
Definition expand_excluded (excluded : option (gset string))
  : option (gset string) :=
  match excluded with
  | Some ex => if decide (ex ≠ ∅) then Some (expand_categories ex) else Some ex
  | None => None
  end.

(** The set an optional exclusion argument stands for. *)
Definition excluded_set (excluded : option (gset string)) : gset string :=
  default ∅ excluded.

End Expansion.

(* ===================================================================== *)
(** ** Host platform: configuration entries and device registry *)
(* ===================================================================== *)

(** A configuration entry of the host, with the attributes the flow reads.
    [unique_id] is [str | None] in the host. *)
Record ConfigEntry := {
  entry_id : string;
  unique_id : option string;
  title : string
}.

#[global] Instance ConfigEntry_eq_dec : EqDecision ConfigEntry.
Proof. solve_decision. Defined.

(** The host's device registry ([homeassistant.helpers.device_registry],
    imported as [dr]): the devices in registry order, each with its id, its
    serial number ([str | None]) and the configuration entries it is
    registered for. *)
Module dr.

Record DeviceEntry := {
  id : string;
  serial_number : option string;
  config_entries : list string
}.

#[global] Instance DeviceEntry_eq_dec : EqDecision DeviceEntry.
Proof. solve_decision. Defined.

(** [async_entries_for_config_entry(registry, config_entry_id)]: the devices
    registered for that entry, in registry order. *)
Definition async_entries_for_config_entry
    (registry : list DeviceEntry) (config_entry_id : string) : list DeviceEntry :=
  filter (λ device, config_entry_id ∈ config_entries device) registry.

(** [registry.async_remove_device(device_id)]. *)
Definition async_remove_device
    (registry : list DeviceEntry) (device_id : string) : list DeviceEntry :=
  filter (λ device, id device ≠ device_id) registry.

End dr.

(** What the routine reads from [hass]: the entries of the integration's
    domain in store order ([hass.config_entries.async_entries(domain=DOMAIN)])
    and the device registry ([dr.async_get(hass)]). *)
Record HomeAssistant := {
  async_entries : list ConfigEntry;
  device_registry : list dr.DeviceEntry
}.

(** [d[k] = v] on an insertion-ordered dictionary: a key already present
    keeps its position. *)
Fixpoint dict_setitem {V} (k : string) (v : V) (d : list (string * V))
  : list (string * V) :=
  match d with
  | [] => [(k, v)]
  | (k', v') :: r =>
      if decide (k' = k) then (k, v) :: r else (k', v') :: dict_setitem k v r
  end.

(* ===================================================================== *)
(** ** Device reconciliation: the scan (lines 386-405) *)
(* ===================================================================== *)

(** Local state of the scan: the ordered mapping [obsolete_user_devs]
    (device id to serial number) and, as a ghost trace, the loop iterations
    executed so far (entry id and device id of each [dev_entry] the inner
    loop body ran for). *)
Record ScanState := {
  obsolete_user_devs : list (string * option string);
  examined : list (string * string)
}.

Definition scan_start : ScanState :=
  {| obsolete_user_devs := []; examined := [] |}.

Definition note_examined (cfg_entry : ConfigEntry) (dev_entry : dr.DeviceEntry)
    (st : ScanState) : ScanState :=
  {| obsolete_user_devs := obsolete_user_devs st;
     examined := examined st ++ [(entry_id cfg_entry, dr.id dev_entry)] |}.

(** [obsolete_user_devs[dev_entry.id] = dev_entry.serial_number]. *)
Definition mark_obsolete (dev_entry : dr.DeviceEntry) (st : ScanState) : ScanState :=
  {| obsolete_user_devs :=
       dict_setitem (dr.id dev_entry) (dr.serial_number dev_entry)
                    (obsolete_user_devs st);
     examined := examined st |}.

Section Reconciliation.
Context {rt : PyRuntime} {const : Const}.
Context {cats : ApiCategories} {types : SolixDeviceType}.

(** [str(v)]. *)
Definition py_str (v : PyVal) : string :=
  match v with
  | VNone => "None"
  | VBool true => "True"
  | VBool false => "False"
  | VInt z => pretty z
  | VStr s => s
  | VList l => list_repr l
  end.

(** [str(user_input.get(CONF_USERNAME) or "").lower()]. *)
Definition candidate_username (user_input : PyDict) : string :=
  str_lower (py_str (py_or (dict_get user_input CONF_USERNAME) (VStr ""))).

(** [dev_entry.serial_number in apidata]. *)
Definition serial_in_apidata
    (serial : option string) (apidata : gmap string PyDict) : bool :=
  match serial with
  | Some s => bool_decide (is_Some (apidata !! s))
  | None => false
  end.

(** [apidata.get(dev_entry.serial_number, {}).get("type")]. *)
Definition recorded_type
    (serial : option string) (apidata : gmap string PyDict) : PyVal :=
  dict_get (default ∅ (serial ≫= (apidata !!.))) "type".

(** [excluded and not {ty} - excluded]: [excluded] holds strings, so the
    difference is empty exactly when [ty] is a string of the set. *)
Definition type_excluded (excluded : option (gset string)) (ty : PyVal) : bool :=
  match excluded with
  | Some ex =>
      bool_decide (ex ≠ ∅)
      && match ty with VStr t => bool_decide (t ∈ ex) | _ => false end
  | None => false
  end.

(** The condition of the first branch:
    [(username := ...) and username != cfg_entry.unique_id]. *)
Definition other_account (username : string) (cfg_entry : ConfigEntry) : bool :=
  negb (String.eqb username "")
  && bool_decide (Some username ≠ unique_id cfg_entry).

(** The condition of the [elif]. *)
Definition is_obsolete (apidata : gmap string PyDict)
    (excluded : option (gset string)) (dev_entry : dr.DeviceEntry) : bool :=
  negb (serial_in_apidata (dr.serial_number dev_entry) apidata)
  || type_excluded excluded
       (recorded_type (dr.serial_number dev_entry) apidata).

(** Inner loop, [for dev_entry in device_entries]. The first component of
    the result is [Some cfg_entry] when the loop left the function by
    [return cfg_entry]. *)
Fixpoint scan_devices (user_input : PyDict) (apidata : gmap string PyDict)
    (excluded : option (gset string)) (cfg_entry : ConfigEntry)
    (device_entries : list dr.DeviceEntry) (st : ScanState)
  : option ConfigEntry * ScanState :=
  match device_entries with
  | [] => (None, st)
  | dev_entry :: device_entries =>
      let st := note_examined cfg_entry dev_entry st in
      let username := candidate_username user_input in
      if other_account username cfg_entry then
        if serial_in_apidata (dr.serial_number dev_entry) apidata
        then (Some cfg_entry, st)
        else scan_devices user_input apidata excluded cfg_entry device_entries st
      else if is_obsolete apidata excluded dev_entry then
        scan_devices user_input apidata excluded cfg_entry device_entries
                     (mark_obsolete dev_entry st)
      else scan_devices user_input apidata excluded cfg_entry device_entries st
  end.

(** Outer loop, [for cfg_entry in cfg_entries]. *)
Fixpoint scan_entries (hass : HomeAssistant) (user_input : PyDict)
    (apidata : gmap string PyDict) (excluded : option (gset string))
    (cfg_entries : list ConfigEntry) (st : ScanState)
  : option ConfigEntry * ScanState :=
  match cfg_entries with
  | [] => (None, st)
  | cfg_entry :: cfg_entries =>
      let device_entries :=
        dr.async_entries_for_config_entry
          (device_registry hass) (entry_id cfg_entry) in
      match scan_devices user_input apidata excluded cfg_entry
                         device_entries st with
      | (Some conflict, st) => (Some conflict, st)
      | (None, st) =>
          scan_entries hass user_input apidata excluded cfg_entries st
      end
  end.

(* ===================================================================== *)
(** ** Device reconciliation: removal and result (lines 407-420) *)
(* ===================================================================== *)

(** [for dev_id, serial in obsolete_user_devs.items()]: remove the device
    and log it. The second component collects the [LOGGER.info] records. *)
Fixpoint remove_obsolete (items : list (string * option string))
    (registry : list dr.DeviceEntry) (log : list (string * option string))
  : list dr.DeviceEntry * list (string * option string) :=
  match items with
  | [] => (registry, log)
  | (dev_id, serial) :: items =>
      remove_obsolete items (dr.async_remove_device registry dev_id)
                      (log ++ [(dev_id, serial)])
  end.

(** Everything a call leaves behind: the value returned, the registry, the
    removals logged, and the local state the scan ended with. *)
Record Reconciled := {
  returned : option ConfigEntry;
  registry_after : list dr.DeviceEntry;
  removed : list (string * option string);
  scan_end : ScanState
}.

Definition async_check_and_remove_devices (hass : HomeAssistant)
    (user_input : PyDict) (apidata : gmap string PyDict)
    (excluded : option (gset string)) : Reconciled :=
  let excluded := expand_excluded excluded in
  let cfg_entries := async_entries hass in
  match scan_entries hass user_input apidata excluded cfg_entries scan_start with
  | (Some cfg_entry, st) =>
      {| returned := Some cfg_entry;
         registry_after := device_registry hass;
         removed := [];
         scan_end := st |}
  | (None, st) =>
      let '(registry, log) :=
        remove_obsolete (obsolete_user_devs st) (device_registry hass) [] in
      {| returned := None;
         registry_after := registry;
         removed := log;
         scan_end := st |}
  end.

End Reconciliation.

(* ===================================================================== *)
(** ** Exceptions, the cloud client and flow results *)
(* ===================================================================== *)

(** The exception classes the flow distinguishes. All of them derive from
    [Exception]: the three client errors the handlers name, the host's
    [AbortFlow] (a [HomeAssistantError]), and any other exception, the
    client's base class [AnkerSolixApiClientError] included. *)
Inductive ExcClass :=
| AnkerSolixApiClientAuthenticationError
| AnkerSolixApiClientCommunicationError
| AnkerSolixApiClientRetryExceededError
| AbortFlow
| OtherException.

#[global] Instance ExcClass_eq_dec : EqDecision ExcClass.
Proof. solve_decision. Defined.

(** A raised exception with [str(type(exception))] and [str(exception)]. *)
Record PyExc := {
  exc_class : ExcClass;
  exc_type : string;
  exc_str : string
}.

(** [AttributeError] raised by [obj.attr] on an object without [attr]. *)
Definition AttributeError (type_name attr : string) : PyExc :=
  {| exc_class := OtherException;
     exc_type := "<class 'AttributeError'>";
     exc_str := "'" +:+ type_name +:+ "' object has no attribute '" +:+ attr +:+ "'" |}.

(** [data_entry_flow.AbortFlow(reason)]. *)
Definition AbortFlow_exc (reason : string) : PyExc :=
  {| exc_class := AbortFlow;
     exc_type := "<class 'homeassistant.data_entry_flow.AbortFlow'>";
     exc_str := "Flow aborted: " +:+ reason |}.

(** The authenticated client, as far as the flow reads it:
    [client.api.nickname], [client.api.sites], [client.api.devices]. *)
Record AnkerSolixApiClient := {
  nickname : string;
  sites : gmap string PyDict;
  devices : gmap string PyDict
}.

(** The remote service behind [api_client]: what [client.authenticate] and
    [client.api.update_sites] answer. *)
Record Cloud := {
  authenticate : PyDict → PyExc + AnkerSolixApiClient;
  update_sites : AnkerSolixApiClient → PyExc + AnkerSolixApiClient
}.

Inductive CloudCall :=
| CallAuthenticate (user_input : PyDict)
| CallUpdateSites.

(** The results a step hands to the host. [Abort] is what the host's flow
    manager makes of an [AbortFlow] that leaves the step. The form's
    [data_schema] is not part of the model. *)
Inductive FlowResult :=
| ShowForm (step_id : string) (errors : gmap string string)
           (description_placeholders : gmap string string)
| CreateEntry (entry_title : PyVal) (data : PyDict) (options : option PyDict)
| Abort (reason : string).

(** Attributes of [AnkerSolixFlowHandler] set in [__init__], and the unique
    id the host keeps in the flow's context. *)
Record FlowHandler := {
  _data : PyDict;
  _options : PyDict;
  client : option AnkerSolixApiClient;
  examplesfolder : string;
  flow_unique_id : option string
}.

Definition FlowHandler_init (examples_path : string) : FlowHandler :=
  {| _data := ∅; _options := ∅; client := None;
     examplesfolder := examples_path; flow_unique_id := None |}.

(** The state a step runs in. *)
Record World := {
  self : FlowHandler;
  hass : HomeAssistant;
  cloud_calls : list CloudCall
}.

(** Computations that read and update the world and may raise. *)
Definition Py (A : Type) : Type := World → (PyExc + A) * World.

#[global] Instance Py_ret : MRet Py := λ A x w, (inr x, w).

#[global] Instance Py_bind : MBind Py := λ A B f m w,
  match m w with
  | (inr x, w') => f x w'
  | (inl e, w') => (inl e, w')
  end.

Definition raise {A} (e : PyExc) : Py A := λ w, (inl e, w).

(** [try: body except ... as exception: handler exception]. *)
Definition try_except {A} (body : Py A) (handler : PyExc → Py A) : Py A := λ w,
  match body w with
  | (inl e, w') => handler e w'
  | (inr x, w') => (inr x, w')
  end.

Definition get_self : Py FlowHandler := λ w, (inr (self w), w).
Definition get_hass : Py HomeAssistant := λ w, (inr (hass w), w).

Definition put_self (f : FlowHandler) : Py unit := λ w,
  (inr (), {| self := f; hass := hass w; cloud_calls := cloud_calls w |}).

Definition put_registry (registry : list dr.DeviceEntry) : Py unit := λ w,
  (inr (), {| self := self w;
              hass := {| async_entries := async_entries (hass w);
                         device_registry := registry |};
              cloud_calls := cloud_calls w |}).

Definition log_call (c : CloudCall) : Py unit := λ w,
  (inr (), {| self := self w; hass := hass w;
              cloud_calls := cloud_calls w ++ [c] |}).

Definition lift_result {A} (r : PyExc + A) : Py A := λ w, (r, w).

(* ===================================================================== *)
(** ** Setup wizard and options editor (lines 84-256) *)
(* ===================================================================== *)

Section Flow.
Context {rt : PyRuntime} {const : Const}.
Context {cats : ApiCategories} {types : SolixDeviceType}.
Context (cloud : Cloud).

(** [account_user.lower()]: only [str] has the method. *)
Definition lower_method (v : PyVal) : Py string :=
  match v with
  | VStr s => mret (str_lower s)
  | _ => raise (AttributeError (py_type_name v) "lower")
  end.

(** Host: [self.async_set_unique_id(unique_id)] records the id in the flow
    context and returns the entry of the domain that already has it. *)
Definition async_set_unique_id (uid : string) : Py (option ConfigEntry) :=
  f ← get_self;
  put_self {| _data := _data f; _options := _options f; client := client f;
              examplesfolder := examplesfolder f;
              flow_unique_id := Some uid |};;
  h ← get_hass;
  mret (list_find (λ entry, unique_id entry = Some uid) (async_entries h)
          ≫= λ p, Some p.2).

(** Host: [self._abort_if_unique_id_configured()] raises [AbortFlow] when
    an entry of the domain has the flow's unique id. *)
Definition _abort_if_unique_id_configured : Py unit :=
  f ← get_self;
  h ← get_hass;
  match flow_unique_id f with
  | None => mret ()
  | Some uid =>
      if bool_decide (Exists (λ entry, unique_id entry = Some uid)
                             (async_entries h))
      then raise (AbortFlow_exc "already_configured")
      else mret ()
  end.

(** [_authenticate_client]: build the client and authenticate it. *)
Definition _authenticate_client (user_input : PyDict) : Py AnkerSolixApiClient :=
  log_call (CallAuthenticate user_input);;
  lift_result (authenticate cloud user_input).

(** [await self.client.api.update_sites()]. *)
Definition client_update_sites : Py AnkerSolixApiClient :=
  f ← get_self;
  match client f with
  | None => raise (AttributeError "NoneType" "api")
  | Some c =>
      log_call CallUpdateSites;;
      c' ← lift_result (update_sites cloud c);
      put_self {| _data := _data f; _options := _options f; client := Some c';
                  examplesfolder := examplesfolder f;
                  flow_unique_id := flow_unique_id f |};;
      mret c'
  end.

(** The reconciliation routine run on the world's [hass]. *)
Definition check_and_remove_devices (user_input : PyDict)
    (apidata : gmap string PyDict) (excluded : option (gset string))
  : Py (option ConfigEntry) :=
  h ← get_hass;
  let r := async_check_and_remove_devices h user_input apidata excluded in
  put_registry (registry_after r);;
  mret (returned r).

(** [async_step_user_options] (lines 188-213). *)
Definition async_step_user_options (user_options : option PyDict) : Py FlowResult :=
  let errors : gmap string string := ∅ in
  let placeholders : gmap string string := ∅ in
  if dict_truthy user_options then
    let user_options := default ∅ user_options in
    f ← get_self;
    let f := {| _data := _data f; _options := user_options; client := client f;
                examplesfolder := examplesfolder f;
                flow_unique_id := flow_unique_id f |} in
    put_self f;;
    if truthy (dict_get (_options f) TESTFOLDER)
       || negb (truthy (dict_get (_options f) TESTMODE))
    then
      mret (CreateEntry
              (match client f with
               | Some c => VStr (nickname c)
               | None => dict_get (_data f) CONF_USERNAME
               end)
              (_data f) (Some (_options f)))
    else
      mret (ShowForm "user_options" (<[TESTFOLDER := "folder_invalid"]> errors)
                     placeholders)
  else mret (ShowForm "user_options" errors placeholders).

(** The [except] clauses of [async_step_user] (lines 162-179): the new
    [errors] and [description_placeholders]. *)
Definition handle_exception (errors placeholders : gmap string string)
    (exception : PyExc) : gmap string string * gmap string string :=
  match exc_class exception with
  | AnkerSolixApiClientAuthenticationError =>
      (<["base" := "auth"]> errors,
       <[ERROR_DETAIL := exc_str exception]> placeholders)
  | AnkerSolixApiClientCommunicationError =>
      (<["base" := "connection"]> errors,
       <[ERROR_DETAIL := exc_str exception]> placeholders)
  | AnkerSolixApiClientRetryExceededError =>
      (<["base" := "exceeded"]> errors,
       <[ERROR_DETAIL := exc_str exception]> placeholders)
  | AbortFlow | OtherException =>
      (<["base" := "unknown"]> errors,
       <[ERROR_DETAIL := "Exception " +:+ exc_type exception +:+ ": "
                         +:+ exc_str exception]> placeholders)
  end.

(** What the body of [if user_input:] leaves: a result to return at once,
    or the [errors] and [description_placeholders] for the form. *)
Inductive UserStep :=
| Return (result : FlowResult)
| Redisplay (errors placeholders : gmap string string).

(** [async_step_user] (lines 84-186). *)
Definition async_step_user (user_input : option PyDict) : Py FlowResult :=
  let errors : gmap string string := ∅ in
  let placeholders : gmap string string := {[ TERMS_LINK := TC_LINK ]} in
  step ←
    (if dict_truthy user_input then
       let user_input := default ∅ user_input in
       if negb (truthy (dict_get_default user_input ACCEPT_TERMS (VStr ""))) then
         mret (Redisplay (<[ACCEPT_TERMS := ACCEPT_TERMS]> errors) placeholders)
       else
         let account_user := dict_get_default user_input CONF_USERNAME (VStr "") in
         try_except
           (uid ← lower_method account_user;
            configured ← async_set_unique_id uid;
            match configured with
            | Some _ => _abort_if_unique_id_configured
            | None =>
                c ← _authenticate_client user_input;
                f ← get_self;
                put_self {| _data := _data f; _options := _options f;
                            client := Some c;
                            examplesfolder := examplesfolder f;
                            flow_unique_id := flow_unique_id f |}
            end;;
            c ← client_update_sites;
            cfg_entry ← check_and_remove_devices user_input
                          (devices c ∪ sites c) None;
            match cfg_entry with
            | Some cfg_entry =>
                mret (Redisplay
                        (<[CONF_USERNAME := "duplicate_devices"]> errors)
                        (<[SHARED_ACCOUNT := title cfg_entry]>
                           (<[CONF_USERNAME := py_str account_user]>
                              placeholders)))
            | None =>
                f ← get_self;
                put_self {| _data := <[EXAMPLESFOLDER := VStr (examplesfolder f)]>
                                       user_input;
                            _options := _options f; client := client f;
                            examplesfolder := examplesfolder f;
                            flow_unique_id := flow_unique_id f |};;
                result ← async_step_user_options None;
                mret (Return result)
            end)
           (λ exception,
              let '(errors, placeholders) :=
                handle_exception errors placeholders exception in
              mret (Redisplay errors placeholders))
     else mret (Redisplay errors placeholders));
  match step with
  | Return result => mret result
  | Redisplay errors placeholders => mret (ShowForm "user" errors placeholders)
  end.

(** [AnkerSolixOptionsFlowHandler.async_step_init] (lines 234-256); the
    handler only holds [config_entry], which the outcome does not read. *)
Definition async_step_init (user_input : option PyDict) : FlowResult :=
  let errors : gmap string string := ∅ in
  let placeholders : gmap string string := ∅ in
  if dict_truthy user_input then
    let user_input := default ∅ user_input in
    if truthy (dict_get user_input TESTFOLDER)
       || negb (truthy (dict_get user_input TESTMODE))
    then CreateEntry (VStr "") user_input None
    else ShowForm "init" (<[TESTFOLDER := "folder_invalid"]> errors) placeholders
  else ShowForm "init" errors placeholders.

End Flow.

(* ===================================================================== *)
(** ** Vocabulary of the properties *)
(* ===================================================================== *)

(** The order in which the two nested loops visit the registered devices:
    entries in store order, the devices of each entry in registry order. *)
Definition scan_order (hass : HomeAssistant)
  : list (ConfigEntry * dr.DeviceEntry) :=
  async_entries hass ≫= λ cfg_entry,
    (λ dev_entry, (cfg_entry, dev_entry)) <$>
      dr.async_entries_for_config_entry
        (device_registry hass) (entry_id cfg_entry).

(** How an iteration shows in the [examined] trace. *)
Definition iteration (p : ConfigEntry * dr.DeviceEntry) : string * string :=
  (entry_id p.1, dr.id p.2).

(** The prefix of a list up to and including the first element with [P]. *)
Fixpoint upto_first {A} (P : A → bool) (l : list A) : list A :=
  match l with
  | [] => []
  | x :: l => if P x then [x] else x :: upto_first P l
  end.

(** The keys of an insertion-ordered dictionary after assigning the keys
    [ids] one after the other: each key at its first occurrence. *)
Definition encounter_order (ids : list string) : list string :=
  foldl (λ (seen : list string) k, if decide (k ∈ seen) then seen else seen ++ [k])
        [] ids.

Section Vocabulary.
Context {rt : PyRuntime} {const : Const}.
Context {cats : ApiCategories} {types : SolixDeviceType}.

(** The two tests of the rules that read several tags. *)
Definition system_rule (ex : gset string) : Prop :=
  site_price ∈ ex ∨ SOLARBANK ∈ ex ∨ INVERTER ∈ ex ∨ PPS ∈ ex ∨ POWERPANEL ∈ ex.

Definition solarbank_rule (ex : gset string) : Prop :=
  solarbank_energy ∈ ex ∨ solarbank_cutoff ∈ ex ∨ solarbank_fittings ∈ ex
  ∨ solarbank_solar_info ∈ ex.

(** [expand_categories] with the tests written as memberships. *)
Definition expand_by_rules (ex : gset string) : gset string :=
  let ex1 := if decide (system_rule ex) then ex ∪ {[ SYSTEM ]} else ex in
  let ex2 := if decide (solarbank_rule ex1) then ex1 ∪ {[ SOLARBANK ]} else ex1 in
  if decide (device_auto_upgrade ∈ ex2) then ex2 ∪ managed_device_types else ex2.

(** A set to which no rule adds anything. *)
Definition rules_closed (ex : gset string) : Prop :=
  (system_rule ex → SYSTEM ∈ ex)
  ∧ (solarbank_rule ex → SOLARBANK ∈ ex)
  ∧ (device_auto_upgrade ∈ ex → managed_device_types ⊆ ex).

(** The device's serial number is a key of the fetched data. *)
Definition serial_present (apidata : gmap string PyDict)
    (dev_entry : dr.DeviceEntry) : Prop :=
  ∃ s, dr.serial_number dev_entry = Some s ∧ is_Some (apidata !! s).

(** The type recorded for the device lies in the expanded exclusion set. *)
Definition type_in_excluded (apidata : gmap string PyDict)
    (excluded : option (gset string)) (dev_entry : dr.DeviceEntry) : Prop :=
  ∃ t, recorded_type (dr.serial_number dev_entry) apidata = VStr t
       ∧ t ∈ excluded_set (expand_excluded excluded).

Definition obsolete_device (apidata : gmap string PyDict)
    (excluded : option (gset string)) (dev_entry : dr.DeviceEntry) : Prop :=
  ¬ serial_present apidata dev_entry
  ∨ type_in_excluded apidata excluded dev_entry.

(** The entry belongs to another account than the candidate's. *)
Definition different_account (username : string) (cfg_entry : ConfigEntry) : Prop :=
  username ≠ "" ∧ unique_id cfg_entry ≠ Some username.

Definition cross_account_conflict (username : string)
    (apidata : gmap string PyDict) (p : ConfigEntry * dr.DeviceEntry) : Prop :=
  different_account username p.1 ∧ serial_present apidata p.2.

(** The iteration returns the entry / marks the device. *)
Definition is_conflict (username : string) (apidata : gmap string PyDict)
    (p : ConfigEntry * dr.DeviceEntry) : bool :=
  other_account username p.1 && serial_in_apidata (dr.serial_number p.2) apidata.

Definition is_marked (username : string) (apidata : gmap string PyDict)
    (excluded : option (gset string)) (p : ConfigEntry * dr.DeviceEntry) : bool :=
  negb (other_account username p.1) && is_obsolete apidata excluded p.2.

(** The mapping after marking the devices of [pairs] in order. *)
Definition mark_all (pairs : list (ConfigEntry * dr.DeviceEntry))
    (d : list (string * option string)) : list (string * option string) :=
  foldl (λ d p, dict_setitem (dr.id p.2) (dr.serial_number p.2) d) d pairs.

(** The two loops as one loop over [scan_order]. *)
Fixpoint scan_pairs (user_input : PyDict) (apidata : gmap string PyDict)
    (excluded : option (gset string))
    (pairs : list (ConfigEntry * dr.DeviceEntry)) (st : ScanState)
  : option ConfigEntry * ScanState :=
  match pairs with
  | [] => (None, st)
  | (cfg_entry, dev_entry) :: pairs =>
      let st := note_examined cfg_entry dev_entry st in
      if other_account (candidate_username user_input) cfg_entry then
        if serial_in_apidata (dr.serial_number dev_entry) apidata
        then (Some cfg_entry, st)
        else scan_pairs user_input apidata excluded pairs st
      else if is_obsolete apidata excluded dev_entry then
        scan_pairs user_input apidata excluded pairs (mark_obsolete dev_entry st)
      else scan_pairs user_input apidata excluded pairs st
  end.

(** Every device id in the mapping the scan ended with is gone from the
    registry and was logged as removed. *)
Definition every_marked_removed (r : Reconciled) : Prop :=
  ∀ k, k ∈ (obsolete_user_devs (scan_end r)).*1 →
       k ∈ (removed r).*1 ∧ k ∉ dr.id <$> registry_after r.

(** The user-visible category of a failure and the text put under
    [ERROR_DETAIL], as the wizard's description states them. *)
Definition error_category (c : ExcClass) : string :=
  match c with
  | AnkerSolixApiClientAuthenticationError => "auth"
  | AnkerSolixApiClientCommunicationError => "connection"
  | AnkerSolixApiClientRetryExceededError => "exceeded"
  | AbortFlow | OtherException => "unknown"
  end.

Definition error_detail (e : PyExc) : string :=
  match exc_class e with
  | AnkerSolixApiClientAuthenticationError
  | AnkerSolixApiClientCommunicationError
  | AnkerSolixApiClientRetryExceededError => exc_str e
  | AbortFlow | OtherException =>
      "Exception " +:+ exc_type e +:+ ": " +:+ exc_str e
  end.

(** The world after a series of calls of the options step. *)
Definition after_options_rounds (submissions : list (option PyDict))
    (w : World) : World :=
  foldl (λ w user_options, (async_step_user_options user_options w).2)
        w submissions.

End Vocabulary.

(* ===================================================================== *)
(** ** Example data *)
(* ===================================================================== *)

Definition entry_alice : ConfigEntry :=
  {| entry_id := "e1"; unique_id := Some "a@x.com"; title := "Alice" |}.
Definition entry_bob : ConfigEntry :=
  {| entry_id := "e2"; unique_id := Some "b@x.com"; title := "Bob" |}.

Definition device_A : dr.DeviceEntry :=
  {| dr.id := "devA"; dr.serial_number := Some "SA"; dr.config_entries := ["e1"] |}.
Definition device_B : dr.DeviceEntry :=
  {| dr.id := "devB"; dr.serial_number := Some "SB"; dr.config_entries := ["e1"] |}.
Definition device_C : dr.DeviceEntry :=
  {| dr.id := "devC"; dr.serial_number := Some "SC"; dr.config_entries := ["e1"] |}.
Definition device_X : dr.DeviceEntry :=
  {| dr.id := "devX"; dr.serial_number := Some "SX"; dr.config_entries := ["e2"] |}.

(** Alice's account alone, with the three devices A, B and C. *)
Definition hass_alice : HomeAssistant :=
  {| async_entries := [entry_alice];
     device_registry := [device_A; device_B; device_C] |}.

(** Alice's device B registered before Bob's device X. *)
Definition hass_two_accounts : HomeAssistant :=
  {| async_entries := [entry_alice; entry_bob];
     device_registry := [device_B; device_X] |}.

Definition input_alice : PyDict :=
  {[ "username" := VStr "A@x.com"; "password" := VStr "pw";
     "country_code" := VStr "DE"; "accept_terms" := VBool true ]}.

Definition input_carol : PyDict :=
  {[ "username" := VStr "Carol@x.com"; "password" := VStr "pw";
     "country_code" := VStr "DE"; "accept_terms" := VBool true ]}.

Definition input_no_username : PyDict := {[ "password" := VStr "pw" ]}.

(** A is present as a solarbank, C is present as an inverter, B is absent. *)
Definition apidata_A_C : gmap string PyDict :=
  {[ "SA" := {[ "type" := VStr "solarbank" ]};
     "SC" := {[ "type" := VStr "inverter" ]} ]}.

(** The fetched data holds Bob's device X. *)
Definition apidata_X : gmap string PyDict :=
  {[ "SX" := {[ "type" := VStr "solarbank" ]} ]}.

Definition client_carol : AnkerSolixApiClient :=
  {| nickname := "Carol"; sites := ∅; devices := ∅ |}.

Definition cloud_ok : Cloud :=
  {| authenticate := λ _, inr client_carol; update_sites := λ c, inr c |}.

Definition exc_bad_password : PyExc :=
  {| exc_class := AnkerSolixApiClientAuthenticationError;
     exc_type := "<class 'custom_components.anker_solix.api_client.AnkerSolixApiClientAuthenticationError'>";
     exc_str := "Invalid credentials" |}.

Definition cloud_rejecting : Cloud :=
  {| authenticate := λ _, inl exc_bad_password; update_sites := λ c, inr c |}.

Definition world_two_accounts : World :=
  {| self := FlowHandler_init "/config/custom_components/anker_solix/examples";
     hass := hass_two_accounts; cloud_calls := [] |}.

Definition options_default : PyDict :=
  {[ "scan_interval" := VInt 60; "dev_interval_mult" := VInt 10;
     "exclude" := VList ["solarbank_energy"] ]}.

Definition options_testmode_no_folder : PyDict :=
  {[ "scan_interval" := VInt 60; "testmode" := VBool true ]}.

(* ===================================================================== *)
(** ** The options schema (lines 40-54 and 259-344) *)
(* ===================================================================== *)

(** A numeric literal of the source: an integer, or the decimal literal
    [mantissa * 10 ^ exponent] of a float ([0.1] is [NFloat 1 (-1)]). The
    code never computes with the bounds. *)
Inductive PyNum :=
| NInt (z : Z)
| NFloat (mantissa exponent : Z).

(** The selectors of [homeassistant.helpers.selector] the options form
    uses, with the keyword arguments the code passes; an argument the code
    leaves out is [None]. *)
Module selector.

Inductive NumberSelectorMode := BOX | SLIDER.

Record NumberSelectorConfig := {
  min : PyNum;
  max : PyNum;
  step : PyNum;
  unit_of_measurement : string;
  mode : NumberSelectorMode
}.

Record SelectSelectorConfig := {
  options : list string;
  select_mode : option string;
  sort : option bool;
  multiple : option bool;
  translation_key : option string
}.

Inductive Selector :=
| NumberSelector (config : NumberSelectorConfig)
| SelectSelector (config : SelectSelectorConfig)
| BooleanSelector.

End selector.

(** [vol.Optional(schema, default=..., description={"suggested_value": ...})];
    an argument the code leaves out is [None]. *)
Module vol.

Record Optional := {
  schema : string;
  default : option PyVal;
  suggested_value : option PyVal
}.

End vol.

(** The constants the schema builder imports: keys from
    [homeassistant.const] and [const.py], the build flag [ALLOW_TESTMODE]
    (its truth value), the default values and category lists of
    [api_client]. The six keys of the form are different strings. *)
Class OptionConst {const : Const} := {
  CONF_SCAN_INTERVAL : string;
  INTERVALMULT : string;
  CONF_DELAY_TIME : string;
  CONF_EXCLUDE : string;
  ALLOW_TESTMODE : bool;
  SCAN_INTERVAL_DEF : PyVal;
  INTERVALMULT_DEF : PyVal;
  DELAY_TIME_DEF : PyVal;
  DEFAULT_EXCLUDE_CATEGORIES : list string;
  API_CATEGORIES : list string;
  option_keys_distinct :
    NoDup [ CONF_SCAN_INTERVAL; INTERVALMULT; CONF_DELAY_TIME; CONF_EXCLUDE;
            TESTMODE; TESTFOLDER ]
}.

(** [list.sort()] on strings: ascending by code point. *)
Definition sort_strings (l : list string) : list string :=
  merge_sort (λ a b, String.leb a b) l.

Section OptionsSchema.
Context {const : Const} {oconst : OptionConst}.

Definition _SCAN_INTERVAL_MIN : PyNum := if ALLOW_TESTMODE then NInt 10 else NInt 30.
Definition _SCAN_INTERVAL_MAX : PyNum := NInt 600.
Definition _SCAN_INTERVAL_STEP : PyNum := NInt 10.
Definition _INTERVALMULT_MIN : PyNum := NInt 2.
Definition _INTERVALMULT_MAX : PyNum := NInt 60.
Definition _INTERVALMULT_STEP : PyNum := NInt 2.
Definition _DELAY_TIME_MIN : PyNum := NFloat 0 (-1).
Definition _DELAY_TIME_MAX : PyNum := NFloat 20 (-1).
Definition _DELAY_TIME_STEP : PyNum := NFloat 1 (-1).
Definition _ALLOW_TESTMODE : bool := ALLOW_TESTMODE.

(** [get_options_schema(entry)]. The dictionary keyed by the markers is the
    list of its items in insertion order; [json_example_folders] is what
    [api_client.json_example_folders()] returns when the form is built. *)
Definition get_options_schema (json_example_folders : list string)
    (entry : option PyDict) : list (vol.Optional * selector.Selector) :=
  let entry : PyDict := default ∅ entry in
  let schema :=
    [ ({| vol.schema := CONF_SCAN_INTERVAL;
          vol.default :=
            Some (dict_get_default entry CONF_SCAN_INTERVAL SCAN_INTERVAL_DEF);
          vol.suggested_value := None |},
       selector.NumberSelector
         {| selector.min := _SCAN_INTERVAL_MIN;
            selector.max := _SCAN_INTERVAL_MAX;
            selector.step := _SCAN_INTERVAL_STEP;
            selector.unit_of_measurement := "sec";
            selector.mode := selector.BOX |});
      ({| vol.schema := INTERVALMULT;
          vol.default :=
            Some (dict_get_default entry INTERVALMULT INTERVALMULT_DEF);
          vol.suggested_value := None |},
       selector.NumberSelector
         {| selector.min := _INTERVALMULT_MIN;
            selector.max := _INTERVALMULT_MAX;
            selector.step := _INTERVALMULT_STEP;
            selector.unit_of_measurement := "updates";
            selector.mode := selector.SLIDER |});
      ({| vol.schema := CONF_DELAY_TIME;
          vol.default :=
            Some (dict_get_default entry CONF_DELAY_TIME DELAY_TIME_DEF);
          vol.suggested_value := None |},
       selector.NumberSelector
         {| selector.min := _DELAY_TIME_MIN;
            selector.max := _DELAY_TIME_MAX;
            selector.step := _DELAY_TIME_STEP;
            selector.unit_of_measurement := "sec";
            selector.mode := selector.SLIDER |});
      ({| vol.schema := CONF_EXCLUDE;
          vol.default :=
            Some (dict_get_default entry CONF_EXCLUDE
                    (VList DEFAULT_EXCLUDE_CATEGORIES));
          vol.suggested_value := None |},
       selector.SelectSelector
         {| selector.options := API_CATEGORIES;
            selector.select_mode := None;
            selector.sort := Some false;
            selector.multiple := Some true;
            selector.translation_key := Some CONF_EXCLUDE |}) ] in
  if _ALLOW_TESTMODE then
    let jsonfolders :=
      match json_example_folders with
      | [] => [""]
      | _ => json_example_folders
      end in
    let jsonfolders := sort_strings jsonfolders in
    schema ++
    [ ({| vol.schema := TESTMODE;
          vol.default := Some (dict_get_default entry TESTMODE (VBool false));
          vol.suggested_value := None |},
       selector.BooleanSelector);
      ({| vol.schema := TESTFOLDER;
          vol.default := None;
          vol.suggested_value :=
            Some (dict_get_default entry TESTFOLDER
                    (VStr (default "" (head jsonfolders)))) |},
       selector.SelectSelector
         {| selector.options := jsonfolders;
            selector.select_mode := Some "dropdown";
            selector.sort := None;
            selector.multiple := None;
            selector.translation_key := None |}) ]
  else schema.

(** The [data_schema] of the form [async_step_user_options] shows:
    [get_options_schema(user_options or self._options)]. *)
Definition user_options_data_schema (json_example_folders : list string)
    (user_options : option PyDict) (f : FlowHandler)
  : list (vol.Optional * selector.Selector) :=
  get_options_schema json_example_folders
    (Some (if dict_truthy user_options then default ∅ user_options
           else _options f)).

(** The [data_schema] of the form [async_step_init] shows:
    [get_options_schema(user_input or self.config_entry.options)]. *)
Definition init_data_schema (json_example_folders : list string)
    (config_entry_options : PyDict) (user_input : option PyDict)
  : list (vol.Optional * selector.Selector) :=
  get_options_schema json_example_folders
    (Some (if dict_truthy user_input then default ∅ user_input
           else config_entry_options)).

(** The default the form shows for a key: the [default] of its marker, or
    its suggested value. *)
Definition shown_default (schema : list (vol.Optional * selector.Selector))
    (key : string) : option PyVal :=
  list_find (λ item, vol.schema item.1 = key) schema ≫= λ found,
    match vol.default found.2.1 with
    | Some v => Some v
    | None => vol.suggested_value found.2.1
    end.

(** The hard-coded default of a key of the form. *)
Definition hard_default (json_example_folders : list string) (key : string)
  : PyVal :=
  if decide (key = CONF_SCAN_INTERVAL) then SCAN_INTERVAL_DEF
  else if decide (key = INTERVALMULT) then INTERVALMULT_DEF
  else if decide (key = CONF_DELAY_TIME) then DELAY_TIME_DEF
  else if decide (key = CONF_EXCLUDE) then VList DEFAULT_EXCLUDE_CATEGORIES
  else if decide (key = TESTMODE) then VBool false
  else VStr (default ""
               (head (sort_strings
                        (match json_example_folders with
                         | [] => [""]
                         | _ => json_example_folders
                         end)))).

(** The keys of the form. *)
Definition form_keys : list string :=
  [CONF_SCAN_INTERVAL; INTERVALMULT; CONF_DELAY_TIME; CONF_EXCLUDE]
  ++ (if _ALLOW_TESTMODE then [TESTMODE; TESTFOLDER] else []).

End OptionsSchema.

(** The option constants the integration ships with, test mode allowed. *)
Definition upstream_options : @OptionConst upstream_const :=
  @Build_OptionConst upstream_const
    "scan_interval" "dev_interval_mult" "delay_time" "exclude"
    true (VInt 60) (VInt 10) (VInt 0)
    ["solarbank_energy"]
    ["site_price"; "device_auto_upgrade"; "solarbank_energy";
     "solarbank_cutoff"; "solarbank_fittings"; "solarbank_solar_info"]
    ltac:(apply (bool_decide_unpack _); vm_compute; exact I).

(** More example data: a world where only Bob is configured, a cloud whose
    data holds Bob's device X, and saved options. *)
Definition hass_bob : HomeAssistant :=
  {| async_entries := [entry_bob]; device_registry := [device_X] |}.

Definition world_bob : World :=
  {| self := FlowHandler_init "/config/custom_components/anker_solix/examples";
     hass := hass_bob; cloud_calls := [] |}.

Definition client_with_X : AnkerSolixApiClient :=
  {| nickname := "Carol"; sites := ∅; devices := apidata_X |}.

Definition cloud_sharing_X : Cloud :=
  {| authenticate := λ _, inr client_with_X; update_sites := λ c, inr c |}.

Definition input_terms_unchecked : PyDict :=
  {[ "username" := VStr "carol@x.com"; "password" := VStr "pw";
     "accept_terms" := VBool false ]}.

Definition input_username_none : PyDict :=
  {[ "username" := VNone; "accept_terms" := VBool true ]}.

(** A solarbank and an inverter of Alice's account, both present. *)
Definition device_S : dr.DeviceEntry :=
  {| dr.id := "devS"; dr.serial_number := Some "SS"; dr.config_entries := ["e1"] |}.
Definition device_I : dr.DeviceEntry :=
  {| dr.id := "devI"; dr.serial_number := Some "SI"; dr.config_entries := ["e1"] |}.

Definition hass_alice_S_I : HomeAssistant :=
  {| async_entries := [entry_alice]; device_registry := [device_S; device_I] |}.

Definition apidata_S_I : gmap string PyDict :=
  {[ "SS" := {[ "type" := VStr "solarbank" ]};
     "SI" := {[ "type" := VStr "inverter" ]} ]}.

Definition options_saved : PyDict :=
  {[ "scan_interval" := VInt 120; "exclude" := VList ["site_price"];
     "testfolder" := VStr "gone" ]}.

Definition input_empty_username : PyDict :=
  {[ "username" := VStr ""; "password" := VStr "pw";
     "accept_terms" := VBool true ]}.

(** [hass] with another device registry. *)
Definition with_registry (h : HomeAssistant) (registry : list dr.DeviceEntry)
  : HomeAssistant :=
  {| async_entries := async_entries h; device_registry := registry |}.

(** The world after a submission that logged in and fetched the site data:
    the unique id and the client are stored, two calls went to the cloud. *)
Definition logged_in (w : World) (uid : string) (c : AnkerSolixApiClient)
    (user_input : PyDict) : World :=
  {| self := {| _data := _data (self w); _options := _options (self w);
                client := Some c;
                examplesfolder := examplesfolder (self w);
                flow_unique_id := Some uid |};
     hass := hass w;
     cloud_calls :=
       cloud_calls w ++ [CallAuthenticate user_input; CallUpdateSites] |}.

(* ===================================================================== *)
(** * Properties *)
(* ===================================================================== *)

Set Warnings "-clear-no-such-hyp".

Lemma gset_nonempty_exists (X : gset string) : X ≠ ∅ ↔ ∃ x, x ∈ X.
Proof.
  split; [apply set_choose_L|].
  intros [x Hx] ->. by apply not_elem_of_empty in Hx.
Qed.

(** Turns [tags_distinct] into the inequalities between the tags. *)
Ltac split_distinct H :=
  unfold tags_distinct in H;
  repeat (apply NoDup_cons in H as [? H]);
  repeat match goal with
         | Hn : _ ∉ _ :: _ |- _ => apply not_elem_of_cons in Hn as [? Hn]
         end.

Ltac tag_neq := solve [ assumption | apply not_eq_sym; assumption ].

Ltac distinct_neq Hd x y :=
  assert (x ≠ y)
    by (let Hd' := fresh in pose proof Hd as Hd'; split_distinct Hd'; tag_neq).

(** Closes a goal with a hypothesis equating two different tags. *)
Ltac tag_clash :=
  exfalso; match goal with Heq : _ = _ |- _ => revert Heq; tag_neq end.

(* ===================================================================== *)
(** ** The exclusion-set expansion *)
(* ===================================================================== *)

Section ExpansionFacts.
Context {cats : ApiCategories} {types : SolixDeviceType}.

Lemma system_rule_fires ex : system_subcategories ∩ ex ≠ ∅ ↔ system_rule ex.
Proof.
  rewrite gset_nonempty_exists. unfold system_subcategories, system_rule.
  split; [intros [x Hx]; set_solver|].
  intros [Hr|[Hr|[Hr|[Hr|Hr]]]];
    [exists site_price|exists SOLARBANK|exists INVERTER|exists PPS
    |exists POWERPANEL]; set_solver.
Qed.

Lemma solarbank_rule_fires ex :
  solarbank_subcategories ∩ ex ≠ ∅ ↔ solarbank_rule ex.
Proof.
  rewrite gset_nonempty_exists. unfold solarbank_subcategories, solarbank_rule.
  split; [intros [x Hx]; set_solver|].
  intros [Hr|[Hr|[Hr|Hr]]];
    [exists solarbank_energy|exists solarbank_cutoff|exists solarbank_fittings
    |exists solarbank_solar_info]; set_solver.
Qed.

Lemma device_rule_fires ex :
  device_subcategories ∩ ex ≠ ∅ ↔ device_auto_upgrade ∈ ex.
Proof.
  rewrite gset_nonempty_exists. unfold device_subcategories.
  split; [intros [x Hx]; set_solver|].
  intros Hr; exists device_auto_upgrade; set_solver.
Qed.

Lemma expand_categories_rules ex : expand_categories ex = expand_by_rules ex.
Proof.
  unfold expand_categories, expand_by_rules.
  repeat (rewrite (decide_ext _ _ _ _ (system_rule_fires _))
          || rewrite (decide_ext _ _ _ _ (solarbank_rule_fires _))
          || rewrite (decide_ext _ _ _ _ (device_rule_fires _))).
  reflexivity.
Qed.

Lemma solarbank_rule_mono ex ex' :
  ex ⊆ ex' → solarbank_rule ex → solarbank_rule ex'.
Proof. unfold solarbank_rule. set_solver. Qed.

Lemma system_rule_mono ex ex' : ex ⊆ ex' → system_rule ex → system_rule ex'.
Proof. unfold system_rule. set_solver. Qed.

Lemma expand_categories_extensive (ex : gset string) : ex ⊆ expand_categories ex.
Proof. unfold expand_categories. repeat case_decide; set_solver. Qed.

Lemma expand_categories_solarbank (ex : gset string) :
  solarbank_rule ex → SOLARBANK ∈ expand_categories ex.
Proof.
  rewrite expand_categories_rules. intros Hr.
  unfold expand_by_rules. cbv zeta.
  rewrite (decide_True (P := solarbank_rule _)).
  - case_decide; set_solver.
  - eapply solarbank_rule_mono; [|done]. case_decide; set_solver.
Qed.

Lemma expand_categories_managed (ex : gset string) :
  device_auto_upgrade ∈ ex → managed_device_types ⊆ expand_categories ex.
Proof.
  rewrite expand_categories_rules. intros Hin.
  unfold expand_by_rules. cbv zeta.
  rewrite (decide_True (P := device_auto_upgrade ∈ _)).
  - set_solver.
  - repeat case_decide; set_solver.
Qed.

Lemma expand_categories_empty : expand_categories ∅ = ∅.
Proof.
  rewrite expand_categories_rules. unfold expand_by_rules. cbv zeta.
  rewrite (decide_False (P := system_rule ∅)) by (unfold system_rule; set_solver).
  rewrite (decide_False (P := solarbank_rule ∅))
    by (unfold solarbank_rule; set_solver).
  by rewrite decide_False by set_solver.
Qed.

(** On the set an optional argument stands for, [expand_excluded] is
    [expand_categories]. *)
Lemma excluded_set_expand excluded :
  excluded_set (expand_excluded excluded)
  = expand_categories (excluded_set excluded).
Proof.
  destruct excluded as [ex|]; cbn; [|by rewrite expand_categories_empty].
  case_decide as Hne; [done|]. cbn.
  subst ex. by rewrite expand_categories_empty.
Qed.

Lemma expand_categories_closed ex : rules_closed ex → expand_categories ex = ex.
Proof.
  intros (Hsys & Hsb & Hupg). rewrite expand_categories_rules.
  unfold expand_by_rules. cbv zeta.
  destruct (decide (system_rule ex)) as [Hs|Hs].
  - assert (ex ∪ {[SYSTEM]} = ex) as -> by set_solver.
    destruct (decide (solarbank_rule ex)) as [Hb|Hb].
    + assert (ex ∪ {[SOLARBANK]} = ex) as -> by set_solver.
      case_decide; set_solver.
    + case_decide; set_solver.
  - destruct (decide (solarbank_rule ex)) as [Hb|Hb].
    + assert (ex ∪ {[SOLARBANK]} = ex) as -> by set_solver.
      case_decide; set_solver.
    + case_decide; set_solver.
Qed.

(** C3: an exclusion set with a solarbank subcategory tag (energy, cutoff,
    fittings, solar_info) expands to a set with the solarbank device type;
    one with the auto-upgrade tag expands to a set with the solarbank,
    inverter, PPS and powerpanel device types. *)
Theorem expansion_adds_device_types (ex : gset string) :
  let expanded := excluded_set (expand_excluded (Some ex)) in
  (solarbank_energy ∈ ex ∨ solarbank_cutoff ∈ ex ∨ solarbank_fittings ∈ ex
   ∨ solarbank_solar_info ∈ ex →
   SOLARBANK ∈ expanded)
  ∧ (device_auto_upgrade ∈ ex →
     SOLARBANK ∈ expanded ∧ INVERTER ∈ expanded ∧ PPS ∈ expanded
     ∧ POWERPANEL ∈ expanded).
Proof.
  cbv zeta. rewrite excluded_set_expand. cbn [excluded_set default]. split.
  - apply expand_categories_solarbank.
  - intros Hup%expand_categories_managed.
    unfold managed_device_types in Hup. set_solver.
Qed.

Section Distinct.
Hypothesis Hd : tags_distinct.

Lemma solarbank_rule_system ex :
  solarbank_rule (ex ∪ {[SYSTEM]}) ↔ solarbank_rule ex.
Proof.
  pose proof Hd as Hd'. split_distinct Hd'. unfold solarbank_rule.
  rewrite !elem_of_union, !elem_of_singleton.
  split; [|tauto].
  intros [[?|?]|[[?|?]|[[?|?]|[?|?]]]]; try tauto; tag_clash.
Qed.

Lemma system_rule_system ex : system_rule (ex ∪ {[SYSTEM]}) ↔ system_rule ex.
Proof.
  split; [|apply system_rule_mono; set_solver].
  pose proof Hd as Hd'. split_distinct Hd'. unfold system_rule.
  rewrite !elem_of_union, !elem_of_singleton.
  intros Hr.
  repeat match goal with
         | Ho : _ ∨ _ |- _ => destruct Ho as [Ho|Ho]
         end;
    try tauto; tag_clash.
Qed.

(** With distinct tags every rule reads the submitted set only. *)
Lemma elem_of_expand_categories x ex :
  x ∈ expand_categories ex ↔
    x ∈ ex
    ∨ (x = SYSTEM ∧ system_rule ex)
    ∨ (x = SOLARBANK ∧ solarbank_rule ex)
    ∨ (x ∈ managed_device_types ∧ device_auto_upgrade ∈ ex).
Proof.
  distinct_neq Hd device_auto_upgrade SYSTEM.
  distinct_neq Hd device_auto_upgrade SOLARBANK.
  rewrite expand_categories_rules. unfold expand_by_rules. cbv zeta.
  rewrite (decide_ext (solarbank_rule (if decide (system_rule ex) then _ else _))
             (solarbank_rule ex)).
  2:{ case_decide; [apply solarbank_rule_system|done]. }
  rewrite (decide_ext (device_auto_upgrade ∈ _) (device_auto_upgrade ∈ ex)).
  2:{ repeat case_decide; set_solver. }
  repeat case_decide; set_solver.
Qed.

Lemma system_in_expand ex :
  SYSTEM ∈ expand_categories ex ↔ SYSTEM ∈ ex ∨ system_rule ex.
Proof.
  distinct_neq Hd SYSTEM SOLARBANK. distinct_neq Hd SYSTEM INVERTER.
  distinct_neq Hd SYSTEM PPS. distinct_neq Hd SYSTEM POWERPANEL.
  rewrite elem_of_expand_categories. unfold managed_device_types.
  set_solver.
Qed.

Lemma solarbank_rule_expand ex :
  solarbank_rule (expand_categories ex) ↔ solarbank_rule ex.
Proof.
  split; [|apply solarbank_rule_mono, expand_categories_extensive].
  pose proof Hd as Hd'. split_distinct Hd'.
  unfold solarbank_rule at 1. rewrite !elem_of_expand_categories.
  unfold managed_device_types. rewrite !elem_of_union, !elem_of_singleton.
  unfold solarbank_rule.
  intros Hr.
  repeat match goal with
         | Ho : _ ∨ _ |- _ => destruct Ho as [Ho|Ho]
         | Ha : _ ∧ _ |- _ => destruct Ha as [Ha ?]
         end;
    try tauto; tag_clash.
Qed.

Lemma auto_upgrade_expand ex :
  device_auto_upgrade ∈ expand_categories ex ↔ device_auto_upgrade ∈ ex.
Proof.
  distinct_neq Hd device_auto_upgrade SYSTEM.
  distinct_neq Hd device_auto_upgrade SOLARBANK.
  distinct_neq Hd device_auto_upgrade INVERTER.
  distinct_neq Hd device_auto_upgrade PPS.
  distinct_neq Hd device_auto_upgrade POWERPANEL.
  rewrite elem_of_expand_categories. unfold managed_device_types. set_solver.
Qed.

(** A second pass can only add the system device type. *)
Lemma expand_categories_twice ex :
  expand_categories (expand_categories ex) =
    if decide (system_rule (expand_categories ex))
    then expand_categories ex ∪ {[ SYSTEM ]} else expand_categories ex.
Proof.
  apply set_eq. intros x.
  rewrite (elem_of_expand_categories x (expand_categories ex)).
  rewrite solarbank_rule_expand, auto_upgrade_expand.
  pose proof (expand_categories_solarbank ex) as Hsb.
  pose proof (expand_categories_managed ex) as Hm.
  case_decide; set_solver.
Qed.

Lemma expand_twice_closed ex :
  rules_closed (expand_categories (expand_categories ex)).
Proof.
  rewrite expand_categories_twice.
  pose proof (expand_categories_solarbank ex) as Hsb.
  pose proof (expand_categories_managed ex) as Hm.
  pose proof (solarbank_rule_expand ex) as Hsb'.
  pose proof (auto_upgrade_expand ex) as Hup.
  pose proof (solarbank_rule_system (expand_categories ex)) as Hs1.
  pose proof (system_rule_system (expand_categories ex)) as Hs2.
  distinct_neq Hd device_auto_upgrade SYSTEM.
  unfold rules_closed. case_decide; set_solver.
Qed.

Lemma expand_excluded_shape excluded :
  expand_excluded excluded
  = (λ _, expand_categories (excluded_set excluded)) <$> excluded.
Proof.
  destruct excluded as [ex|]; cbn; [|done].
  case_decide as Hne; [done|].
  subst ex. by rewrite expand_categories_empty.
Qed.

(** C5 (amended): the expansion is one pass over the three rules and not a
    closure. It only adds tags; the system device type is in the expanded
    set exactly when the submitted set holds it or one of the price,
    solarbank, inverter, PPS and powerpanel tags; expanding the expanded
    set adds at most the system device type; and the set expanded twice is
    closed: a third expansion returns it unchanged. *)
Theorem expansion_single_pass (excluded : option (gset string)) :
  let once := expand_excluded excluded in
  let twice := expand_excluded once in
  excluded_set excluded ⊆ excluded_set once
  ∧ (SYSTEM ∈ excluded_set once ↔
       SYSTEM ∈ excluded_set excluded
       ∨ system_subcategories ∩ excluded_set excluded ≠ ∅)
  ∧ excluded_set once ⊆ excluded_set twice
  ∧ excluded_set twice ⊆ excluded_set once ∪ {[ SYSTEM ]}
  ∧ expand_excluded twice = twice.
Proof.
  cbv zeta. rewrite !excluded_set_expand. repeat split.
  - apply expand_categories_extensive.
  - rewrite system_rule_fires. apply system_in_expand.
  - rewrite system_rule_fires. apply system_in_expand.
  - apply expand_categories_extensive.
  - rewrite expand_categories_twice. case_decide; set_solver.
  - rewrite (expand_excluded_shape (expand_excluded (expand_excluded excluded))).
    rewrite !excluded_set_expand.
    rewrite (expand_categories_closed _ (expand_twice_closed _)).
    rewrite (expand_excluded_shape (expand_excluded excluded)).
    rewrite excluded_set_expand.
    rewrite (expand_excluded_shape excluded). by destruct excluded.
Qed.

End Distinct.
End ExpansionFacts.

(* ===================================================================== *)
(** ** Lists and insertion-ordered dictionaries *)
(* ===================================================================== *)

Lemma head_filter_None {A} (P : A → Prop) `{∀ x, Decision (P x)} (l : list A) :
  head (filter P l) = None ↔ Forall (λ x, ¬ P x) l.
Proof.
  induction l as [|x l IH].
  - split; [constructor|done].
  - destruct (decide (P x)) as [HP|HP].
    + rewrite filter_cons_True by done. split; [done|]. by inv 1.
    + rewrite filter_cons_False by done. rewrite IH.
      split; [by constructor|by inv 1].
Qed.

Lemma head_filter_first {A} (P : A → Prop) `{∀ x, Decision (P x)}
    (pre post : list A) (p : A) :
  Forall (λ x, ¬ P x) pre → P p → head (filter P (pre ++ p :: post)) = Some p.
Proof.
  induction 1 as [|x pre Hx Hpre IH]; intros Hp; cbn [app].
  - by rewrite filter_cons_True.
  - rewrite filter_cons_False by done. auto.
Qed.

Lemma upto_first_all {A} (P : A → bool) (l : list A) :
  Forall (λ x, ¬ P x) l → upto_first P l = l.
Proof.
  induction 1 as [|x l Hx Hl IH]; [done|]. cbn.
  destruct (P x); [by destruct Hx|by f_equal].
Qed.

Lemma upto_first_stop {A} (P : A → bool) (pre post : list A) (p : A) :
  Forall (λ x, ¬ P x) pre → P p → upto_first P (pre ++ p :: post) = pre ++ [p].
Proof.
  induction 1 as [|x pre Hx Hpre IH]; intros Hp; cbn.
  - by destruct (P p).
  - destruct (P x); [by destruct Hx|]. f_equal. auto.
Qed.

Lemma dict_setitem_keys {V} k (v : V) d :
  (dict_setitem k v d).*1 = if decide (k ∈ d.*1) then d.*1 else d.*1 ++ [k].
Proof.
  induction d as [|[k' v'] d IH]; [done|]. cbn.
  destruct (decide (k' = k)) as [->|Hne]; cbn.
  - by rewrite decide_True by left.
  - rewrite IH. destruct (decide (k ∈ d.*1)).
    + by rewrite decide_True by (by right).
    + rewrite decide_False; [done|]. rewrite not_elem_of_cons. by split.
Qed.

Lemma elem_of_encounter_from k seen ids :
  k ∈ foldl (λ (seen : list string) k,
               if decide (k ∈ seen) then seen else seen ++ [k]) seen ids
  ↔ k ∈ seen ∨ k ∈ ids.
Proof.
  revert seen. induction ids as [|i ids IH]; intros seen; cbn.
  - rewrite elem_of_nil. tauto.
  - rewrite IH.
    case_decide; rewrite ?elem_of_app, ?elem_of_cons, ?elem_of_nil;
      naive_solver.
Qed.

Lemma remove_obsolete_spec items registry log :
  remove_obsolete items registry log
  = (filter (λ d, dr.id d ∉ items.*1) registry, log ++ items).
Proof.
  revert registry log. induction items as [|[k v] items IH]; intros registry log.
  - cbn. rewrite app_nil_r. f_equal.
    induction registry as [|d registry IHr]; [done|].
    rewrite filter_cons_True by apply not_elem_of_nil. by f_equal.
  - cbn [remove_obsolete]. rewrite IH. rewrite <- app_assoc. f_equal.
    unfold dr.async_remove_device. rewrite list_filter_filter.
    apply list_filter_iff. intros d. cbn. rewrite not_elem_of_cons. tauto.
Qed.

Lemma elem_of_scan_order h e d :
  (e, d) ∈ scan_order h ↔
    e ∈ async_entries h
    ∧ d ∈ dr.async_entries_for_config_entry (device_registry h) (entry_id e).
Proof.
  unfold scan_order. rewrite list_elem_of_bind. split.
  - intros (e' & Hin & He). apply list_elem_of_fmap in Hin as (d' & Heq & Hd).
    by simplify_eq.
  - intros [He Hd]. exists e. split; [|done]. apply list_elem_of_fmap. eauto.
Qed.

(* ===================================================================== *)
(** ** The device reconciliation routine *)
(* ===================================================================== *)

Section ReconciliationFacts.
Context {rt : PyRuntime} {const : Const}.
Context {cats : ApiCategories} {types : SolixDeviceType}.

Lemma scan_devices_pairs ui apidata excluded e ds st :
  scan_devices ui apidata excluded e ds st
  = scan_pairs ui apidata excluded ((λ d, (e, d)) <$> ds) st.
Proof.
  revert st. induction ds as [|d ds IH]; intros st; [done|].
  cbn [scan_devices fmap list_fmap scan_pairs].
  repeat case_match; auto.
Qed.

Lemma scan_pairs_app ui apidata excluded l1 l2 st :
  scan_pairs ui apidata excluded (l1 ++ l2) st =
    match scan_pairs ui apidata excluded l1 st with
    | (Some c, st') => (Some c, st')
    | (None, st') => scan_pairs ui apidata excluded l2 st'
    end.
Proof.
  revert st. induction l1 as [|[e d] l1 IH]; intros st; [done|].
  cbn [app scan_pairs]. repeat case_match; simplify_eq; auto.
  all: rewrite IH; by repeat case_match; simplify_eq.
Qed.

Lemma scan_entries_pairs h ui apidata excluded es st :
  scan_entries h ui apidata excluded es st
  = scan_pairs ui apidata excluded
      (es ≫= λ e, (λ d, (e, d)) <$>
         dr.async_entries_for_config_entry (device_registry h) (entry_id e)) st.
Proof.
  revert st. induction es as [|e es IH]; intros st; [done|].
  cbn [scan_entries mbind list_bind]. rewrite scan_pairs_app, scan_devices_pairs.
  destruct (scan_pairs _ _ _ _ st) as [[c|] st']; [done|apply IH].
Qed.

(** What the one-loop scan returns and ends with. *)
Lemma scan_pairs_spec ui apidata excluded pairs st :
  let u := candidate_username ui in
  let seen := upto_first (is_conflict u apidata) pairs in
  scan_pairs ui apidata excluded pairs st =
    (fst <$> head (filter (λ p, is_conflict u apidata p) pairs),
     {| obsolete_user_devs :=
          mark_all (filter (λ p, is_marked u apidata excluded p) seen)
                   (obsolete_user_devs st);
        examined := examined st ++ (iteration <$> seen) |}).
Proof.
  cbv zeta. set (u := candidate_username ui).
  revert st. induction pairs as [|[e d] pairs IH]; intros st.
  - cbn. rewrite app_nil_r. by destruct st.
  - cbn [scan_pairs upto_first]. fold u.
    pose proof (eq_refl (is_conflict u apidata (e, d))) as Hc.
    pose proof (eq_refl (is_marked u apidata excluded (e, d))) as Hm.
    unfold is_conflict at 1 in Hc. unfold is_marked at 1 in Hm.
    cbn [fst snd] in Hc, Hm.
    destruct (other_account u e); cbn [andb negb] in Hc, Hm.
    + destruct (serial_in_apidata (dr.serial_number d) apidata).
      * rewrite <- Hc. rewrite filter_cons_True by (by rewrite <- Hc).
        rewrite (filter_cons_False (λ p, is_marked u apidata excluded p))
          by (rewrite <- Hm; tauto).
        done.
      * rewrite <- Hc, IH. rewrite filter_cons_False by (rewrite <- Hc; tauto).
        rewrite (filter_cons_False (λ p, is_marked u apidata excluded p))
          by (rewrite <- Hm; tauto).
        cbn. by rewrite <- app_assoc.
    + rewrite <- Hc. rewrite filter_cons_False by (rewrite <- Hc; tauto).
      destruct (is_obsolete apidata excluded d); rewrite IH.
      * rewrite (filter_cons_True (λ p, is_marked u apidata excluded p))
          by (by rewrite <- Hm).
        cbn. by rewrite <- app_assoc.
      * rewrite (filter_cons_False (λ p, is_marked u apidata excluded p))
          by (rewrite <- Hm; tauto).
        cbn. by rewrite <- app_assoc.
Qed.

Lemma mark_all_keys pairs d :
  (mark_all pairs d).*1
  = foldl (λ (seen : list string) k,
             if decide (k ∈ seen) then seen else seen ++ [k])
      d.*1 ((λ p, dr.id p.2) <$> pairs).
Proof.
  revert d. induction pairs as [|p pairs IH]; intros d; [done|].
  cbn. unfold mark_all in IH. rewrite IH. by rewrite dict_setitem_keys.
Qed.

(** The routine in closed form. *)
Lemma reconciled_spec h ui apidata excluded :
  let u := candidate_username ui in
  let seen := upto_first (is_conflict u apidata) (scan_order h) in
  let marked :=
    mark_all (filter (λ p, is_marked u apidata (expand_excluded excluded) p) seen)
             [] in
  let st := {| obsolete_user_devs := marked; examined := iteration <$> seen |} in
  async_check_and_remove_devices h ui apidata excluded =
    match head (filter (λ p, is_conflict u apidata p) (scan_order h)) with
    | Some p =>
        {| returned := Some p.1; registry_after := device_registry h;
           removed := []; scan_end := st |}
    | None =>
        {| returned := None;
           registry_after :=
             filter (λ d, dr.id d ∉ marked.*1) (device_registry h);
           removed := marked; scan_end := st |}
    end.
Proof.
  cbv zeta. unfold async_check_and_remove_devices.
  rewrite scan_entries_pairs. fold (scan_order h). rewrite scan_pairs_spec.
  cbn [scan_start obsolete_user_devs examined app].
  destruct (head _) as [p|]; cbn [fmap option_fmap option_map]; [done|].
  by rewrite remove_obsolete_spec.
Qed.

Lemma serial_in_apidata_present apidata d :
  serial_in_apidata (dr.serial_number d) apidata ↔ serial_present apidata d.
Proof.
  unfold serial_in_apidata, serial_present. destruct (dr.serial_number d) as [s|].
  - rewrite bool_decide_spec. naive_solver.
  - naive_solver.
Qed.

Lemma other_account_different u e : other_account u e ↔ different_account u e.
Proof.
  unfold other_account, different_account.
  rewrite andb_True, negb_True, bool_decide_spec.
  destruct (String.eqb_spec u ""); naive_solver.
Qed.

Lemma is_conflict_cross u apidata p :
  is_conflict u apidata p ↔ cross_account_conflict u apidata p.
Proof.
  unfold is_conflict, cross_account_conflict.
  by rewrite andb_True, other_account_different, serial_in_apidata_present.
Qed.

Lemma type_excluded_in o ty :
  type_excluded o ty ↔ ∃ t, ty = VStr t ∧ t ∈ excluded_set o.
Proof.
  unfold type_excluded, excluded_set. destruct o as [ex|]; cbn.
  - rewrite andb_True, bool_decide_spec. split.
    + intros [_ Hty]. destruct ty; try done.
      apply bool_decide_spec in Hty. eauto.
    + intros (t & -> & Hin). split; [set_solver|by apply bool_decide_spec].
  - split; [done|]. intros (t & _ & Hin). set_solver.
Qed.

Lemma is_obsolete_device apidata excluded d :
  is_obsolete apidata (expand_excluded excluded) d
  ↔ obsolete_device apidata excluded d.
Proof.
  unfold is_obsolete, obsolete_device, type_in_excluded.
  by rewrite orb_True, negb_True, type_excluded_in, serial_in_apidata_present.
Qed.

Lemma is_marked_same_account u apidata excluded p :
  is_marked u apidata (expand_excluded excluded) p
  ↔ ¬ different_account u p.1 ∧ obsolete_device apidata excluded p.2.
Proof.
  unfold is_marked.
  by rewrite andb_True, negb_True, other_account_different, is_obsolete_device.
Qed.

(** The outcome of a scan that meets no conflict. *)
Lemma completed_scan_spec h ui apidata excluded :
  let u := candidate_username ui in
  let r := async_check_and_remove_devices h ui apidata excluded in
  let marked :=
    mark_all (filter (λ p, is_marked u apidata (expand_excluded excluded) p)
                     (scan_order h)) [] in
  Forall (λ p, ¬ is_conflict u apidata p) (scan_order h) →
  r = {| returned := None;
         registry_after := filter (λ d, dr.id d ∉ marked.*1) (device_registry h);
         removed := marked;
         scan_end := {| obsolete_user_devs := marked;
                        examined := iteration <$> scan_order h |} |}.
Proof.
  cbv zeta. intros Hno. rewrite reconciled_spec. cbv zeta.
  rewrite (proj2 (head_filter_None _ _) Hno).
  by rewrite upto_first_all.
Qed.

Lemma elem_of_marked_keys u apidata excluded pairs k :
  k ∈ (mark_all (filter (λ p, is_marked u apidata (expand_excluded excluded) p)
                        pairs) []).*1
  ↔ ∃ e d, (e, d) ∈ pairs ∧ dr.id d = k
           ∧ ¬ different_account u e ∧ obsolete_device apidata excluded d.
Proof.
  rewrite mark_all_keys, elem_of_encounter_from, elem_of_nil, list_elem_of_fmap.
  split.
  - intros [[]|([e d] & -> & Hin)].
    apply list_elem_of_filter in Hin as [Hm Hin].
    apply is_marked_same_account in Hm as [? ?]. by exists e, d.
  - intros (e & d & Hin & <- & Hs & Ho). right. exists (e, d). split; [done|].
    apply list_elem_of_filter. split; [|done]. by apply is_marked_same_account.
Qed.

(** C1: with a non-empty candidate username the routine returns an entry
    exactly when the scan order holds a device of an entry whose unique id
    differs from the lower-cased username and whose serial number is a key
    of the fetched data; the entry returned is that of the first such
    device, and the loop body ran for the devices up to and including it
    and for no device after it. *)
Theorem conflict_is_first_match h ui apidata excluded :
  let u := candidate_username ui in
  let r := async_check_and_remove_devices h ui apidata excluded in
  let conflict := λ p : ConfigEntry * dr.DeviceEntry,
    unique_id p.1 ≠ Some u ∧ serial_present apidata p.2 in
  u ≠ "" →
  (is_Some (returned r) ↔ Exists conflict (scan_order h))
  ∧ (∀ pre p post,
       scan_order h = pre ++ p :: post →
       Forall (λ q, ¬ conflict q) pre → conflict p →
       returned r = Some p.1
       ∧ examined (scan_end r) = iteration <$> (pre ++ [p])).
Proof.
  cbv zeta. intros Hu.
  assert (Hc : ∀ p, is_conflict (candidate_username ui) apidata p
                    ↔ unique_id p.1 ≠ Some (candidate_username ui)
                      ∧ serial_present apidata p.2).
  { intros p. rewrite is_conflict_cross.
    unfold cross_account_conflict, different_account. tauto. }
  rewrite reconciled_spec. cbv zeta. split.
  - rewrite Exists_exists. split.
    + destruct (head _) as [p|] eqn:Hh; [intros _|by intros [? ?]].
      apply head_Some_elem_of, list_elem_of_filter in Hh as [Hp Hin].
      exists p. split; [done|by apply Hc].
    + intros (p & Hin & Hp).
      destruct (head _) as [q|] eqn:Hh; [done|].
      apply head_filter_None in Hh. rewrite Forall_forall in Hh.
      destruct (Hh p Hin). by apply Hc.
  - intros pre p post Hso Hpre Hp. rewrite Hso.
    rewrite (head_filter_first _ pre post p), (upto_first_stop _ pre post p).
    + done.
    + eapply Forall_impl; [done|]. intros q Hq Hq'. by apply Hq, Hc.
    + by apply Hc.
    + eapply Forall_impl; [done|]. intros q Hq Hq'. by apply Hq, Hc.
    + by apply Hc.
Qed.

(** C2: when the scan order holds no cross-account conflict the routine
    returns nothing, removes what it marked, and a device id is marked
    exactly when a device with that id is registered under an entry of the
    candidate's account and its serial number is absent from the fetched
    data or its recorded type lies in the expanded exclusion set; the
    registry keeps exactly the devices whose id was not marked. *)
Theorem same_account_devices_pruned h ui apidata excluded :
  let u := candidate_username ui in
  let r := async_check_and_remove_devices h ui apidata excluded in
  Forall (λ p, ¬ cross_account_conflict u apidata p) (scan_order h) →
  returned r = None
  ∧ removed r = obsolete_user_devs (scan_end r)
  ∧ (∀ k, k ∈ (obsolete_user_devs (scan_end r)).*1 ↔
          ∃ e d, (e, d) ∈ scan_order h ∧ dr.id d = k
                 ∧ ¬ different_account u e
                 ∧ obsolete_device apidata excluded d)
  ∧ registry_after r
    = filter (λ d, dr.id d ∉ (obsolete_user_devs (scan_end r)).*1)
             (device_registry h).
Proof.
  cbv zeta. intros Hno. rewrite completed_scan_spec.
  - cbn. repeat split; try done; apply elem_of_marked_keys.
  - eapply Forall_impl; [done|]. intros p Hp Hc. by apply Hp, is_conflict_cross.
Qed.

(** C4 (amended): when the routine returns nothing, every device it marked
    is removed from the registry, the removals being made in the order in
    which the device ids were first marked; when it returns a conflicting
    entry it removes nothing and leaves the registry as it was. *)
Theorem removal_only_after_completed_scan h ui apidata excluded :
  let u := candidate_username ui in
  let r := async_check_and_remove_devices h ui apidata excluded in
  (returned r = None →
     removed r = obsolete_user_devs (scan_end r)
     ∧ (removed r).*1
       = encounter_order
           ((λ p, dr.id p.2) <$>
              filter (λ p, is_marked u apidata (expand_excluded excluded) p)
                     (scan_order h))
     ∧ registry_after r
       = filter (λ d, dr.id d ∉ (obsolete_user_devs (scan_end r)).*1)
                (device_registry h))
  ∧ (is_Some (returned r) →
     removed r = [] ∧ registry_after r = device_registry h).
Proof.
  cbv zeta. split.
  - intros Hnone.
    assert (Hno : Forall (λ p, ¬ is_conflict (candidate_username ui) apidata p)
                    (scan_order h)).
    { apply (head_filter_None
               (λ p, is_conflict (candidate_username ui) apidata p)).
      rewrite reconciled_spec in Hnone. cbv zeta in Hnone.
      by destruct (head _). }
    rewrite completed_scan_spec by done. cbn.
    repeat split; try done. by rewrite mark_all_keys.
  - rewrite reconciled_spec. cbv zeta. destruct (head _); [done|by intros [? ?]].
Qed.

(** C10: when the user input has no username, or an empty one, the routine
    returns nothing; the loop body runs for every device of every entry of
    the domain, and a device id is marked, and its device removed, exactly
    when a device with that id, under whatever entry, has its serial number
    absent from the fetched data or its type in the expanded exclusion
    set. *)
Theorem empty_username_prunes_every_account h ui apidata excluded :
  let r := async_check_and_remove_devices h ui apidata excluded in
  truthy (dict_get ui CONF_USERNAME) = false →
  returned r = None
  ∧ examined (scan_end r) = iteration <$> scan_order h
  ∧ removed r = obsolete_user_devs (scan_end r)
  ∧ (∀ k, k ∈ (obsolete_user_devs (scan_end r)).*1 ↔
          ∃ e d, (e, d) ∈ scan_order h ∧ dr.id d = k
                 ∧ obsolete_device apidata excluded d)
  ∧ registry_after r
    = filter (λ d, dr.id d ∉ (obsolete_user_devs (scan_end r)).*1)
             (device_registry h).
Proof.
  cbv zeta. intros Hfalsy.
  assert (Hu : candidate_username ui = "").
  { unfold candidate_username, py_or. rewrite Hfalsy. cbn. apply str_lower_empty. }
  assert (Hda : ∀ e, ¬ different_account (candidate_username ui) e).
  { intros e [Hne _]. by apply Hne. }
  rewrite completed_scan_spec.
  - cbn. repeat split; try done.
    + rewrite elem_of_marked_keys. naive_solver.
    + intros (e & d & ? & ? & ?). apply elem_of_marked_keys. naive_solver.
  - apply Forall_forall. intros p _ Hc. apply is_conflict_cross in Hc as [Hc _].
    by apply (Hda p.1).
Qed.

End ReconciliationFacts.

(* ===================================================================== *)
(** ** The setup wizard and the options editor *)
(* ===================================================================== *)

Section FlowFacts.
Context {rt : PyRuntime} {const : Const}.
Context {cats : ApiCategories} {types : SolixDeviceType}.
Context (cloud : Cloud).

Lemma handle_exception_spec errors placeholders e :
  handle_exception errors placeholders e
  = (<["base" := error_category (exc_class e)]> errors,
     <[ERROR_DETAIL := error_detail e]> placeholders).
Proof. unfold handle_exception, error_detail. by destruct (exc_class e). Qed.

Lemma truthy_get_nonempty (d : PyDict) k :
  truthy (dict_get_default d k (VStr "")) = true → dict_truthy (Some d) = true.
Proof.
  unfold dict_truthy. intros Ht. rewrite bool_decide_eq_false_2; [done|].
  intros ->. unfold dict_get_default in Ht. by rewrite lookup_empty in Ht.
Qed.

Lemma dict_truthy_nonempty (d : PyDict) : d ≠ ∅ → dict_truthy (Some d) = true.
Proof. intros Hne. unfold dict_truthy. by rewrite bool_decide_eq_false_2. Qed.

Lemma find_unconfigured uid (entries : list ConfigEntry) :
  Forall (λ entry, unique_id entry ≠ Some uid) entries →
  list_find (λ entry, unique_id entry = Some uid) entries = None.
Proof. intros Hall. by apply list_find_None. Qed.

Lemma find_configured uid (entries : list ConfigEntry) :
  Exists (λ entry, unique_id entry = Some uid) entries →
  is_Some (list_find (λ entry, unique_id entry = Some uid) entries).
Proof.
  intros Hex. apply Exists_exists in Hex as (e & Hin & He).
  destruct (list_find _ entries) eqn:Hf; [done|].
  apply list_find_None in Hf. rewrite Forall_forall in Hf.
  by destruct (Hf e Hin).
Qed.

(** C6, what the code does: a submission with the terms accepted whose
    lower-cased username is the unique id of an existing entry does not
    abort the flow. The [AbortFlow] raised by the host is caught by the last
    [except] clause, and the step returns the credential form with the
    catch-all error; no authentication is attempted. *)
Theorem configured_username_shows_form w ui u :
  truthy (dict_get_default ui ACCEPT_TERMS (VStr "")) = true →
  dict_get_default ui CONF_USERNAME (VStr "") = VStr u →
  Exists (λ entry, unique_id entry = Some (str_lower u))
         (async_entries (hass w)) →
  ∃ w',
    async_step_user cloud (Some ui) w
    = (inr (ShowForm "user" {[ "base" := "unknown" ]}
              (<[ERROR_DETAIL :=
                   "Exception <class 'homeassistant.data_entry_flow.AbortFlow'>: Flow aborted: already_configured"]>
                 {[ TERMS_LINK := TC_LINK ]})), w')
    ∧ cloud_calls w' = cloud_calls w
    ∧ hass w' = hass w.
Proof.
  intros Hterms Huser Hcfg.
  unfold async_step_user. rewrite (truthy_get_nonempty _ _ Hterms).
  change (default ∅ (Some ui)) with ui. rewrite Hterms. cbn [negb]. rewrite Huser.
  unfold try_except, lower_method, async_set_unique_id,
    _abort_if_unique_id_configured, get_self, get_hass, put_self.
  unfold mbind, Py_bind, mret, Py_ret.
  cbn beta iota delta [self hass cloud_calls].
  destruct (find_configured _ _ Hcfg) as [[i e] ->].
  cbn beta iota delta [mbind option_bind self hass cloud_calls flow_unique_id].
  rewrite bool_decide_eq_true_2 by done. unfold raise.
  rewrite handle_exception_spec, insert_empty. eexists. split; [reflexivity|done].
Qed.

(** C9: when the terms are accepted, the username is not configured yet,
    and authentication or the fetch of the site data raises, the step
    returns the credential form with the error category of the exception
    under [base] and its detail text under [ERROR_DETAIL]; the categories
    of the three client errors and the catch-all are four different
    texts. *)
Theorem failed_login_redisplays_form w ui u exception :
  truthy (dict_get_default ui ACCEPT_TERMS (VStr "")) = true →
  dict_get_default ui CONF_USERNAME (VStr "") = VStr u →
  Forall (λ entry, unique_id entry ≠ Some (str_lower u))
         (async_entries (hass w)) →
  (authenticate cloud ui = inl exception
   ∨ ∃ c, authenticate cloud ui = inr c ∧ update_sites cloud c = inl exception) →
  (∃ w',
     async_step_user cloud (Some ui) w
     = (inr (ShowForm "user"
               {[ "base" := error_category (exc_class exception) ]}
               (<[ERROR_DETAIL := error_detail exception]>
                  {[ TERMS_LINK := TC_LINK ]})), w')
     ∧ hass w' = hass w)
  ∧ NoDup (error_category <$>
             [ AnkerSolixApiClientAuthenticationError;
               AnkerSolixApiClientCommunicationError;
               AnkerSolixApiClientRetryExceededError;
               OtherException ]).
Proof.
  intros Hterms Huser Hnew Hfail.
  split; [|cbn; apply (bool_decide_unpack _); by vm_compute].
  unfold async_step_user. rewrite (truthy_get_nonempty _ _ Hterms).
  change (default ∅ (Some ui)) with ui. rewrite Hterms. cbn [negb]. rewrite Huser.
  unfold try_except, lower_method, async_set_unique_id, _authenticate_client,
    client_update_sites, log_call, lift_result, get_self, get_hass, put_self.
  unfold mbind, Py_bind, mret, Py_ret.
  cbn beta iota delta [self hass cloud_calls].
  rewrite (find_unconfigured _ _ Hnew).
  cbn beta iota delta [mbind option_bind self hass cloud_calls client].
  destruct Hfail as [Ha|(c & Ha & Hu)]; rewrite Ha;
    cbn beta iota delta [self hass cloud_calls client]; rewrite ?Hu;
    cbn beta iota delta [self hass cloud_calls client];
    rewrite handle_exception_spec, insert_empty; eexists; split; reflexivity.
Qed.

(** C8: for a submitted (non-empty) options bag, in the wizard's options
    step and in the options editor alike: with test mode on and no test
    folder the result is the form with the error [folder_invalid] on the
    test-folder field and nothing is created; otherwise the result creates
    the entry, or the options update, with the submitted bag. *)
Theorem test_folder_required w opts :
  let missing :=
    truthy (dict_get opts TESTMODE) && negb (truthy (dict_get opts TESTFOLDER)) in
  opts ≠ ∅ →
  (missing = true →
     (∃ w', async_step_user_options (Some opts) w
            = (inr (ShowForm "user_options"
                      {[ TESTFOLDER := "folder_invalid" ]} ∅), w')
            ∧ hass w' = hass w)
     ∧ async_step_init (Some opts)
       = ShowForm "init" {[ TESTFOLDER := "folder_invalid" ]} ∅)
  ∧ (missing = false →
     (∃ w' t, async_step_user_options (Some opts) w
              = (inr (CreateEntry t (_data (self w)) (Some opts)), w'))
     ∧ async_step_init (Some opts) = CreateEntry (VStr "") opts None).
Proof.
  cbv zeta. intros Hne.
  unfold async_step_user_options, async_step_init.
  rewrite (dict_truthy_nonempty _ Hne). change (default ∅ (Some opts)) with opts.
  unfold mbind, Py_bind, mret, Py_ret, get_self, put_self.
  cbn beta iota delta [self hass cloud_calls _options _data client].
  destruct (truthy (dict_get opts TESTFOLDER)), (truthy (dict_get opts TESTMODE));
    cbn [andb orb negb]; (split; [intros ?|intros ?]); try done;
    rewrite ?insert_empty; eauto.
Qed.

Lemma options_step_keeps_account user_options w :
  let w' := (async_step_user_options user_options w).2 in
  _data (self w') = _data (self w) ∧ client (self w') = client (self w).
Proof.
  cbv zeta. unfold async_step_user_options.
  destruct (dict_truthy user_options); [|done].
  unfold mbind, Py_bind, mret, Py_ret, get_self, put_self.
  cbn beta iota delta [self hass cloud_calls _options _data client].
  by destruct (_ || _).
Qed.

Lemma options_rounds_keep_account submissions w :
  let w' := after_options_rounds submissions w in
  _data (self w') = _data (self w) ∧ client (self w') = client (self w).
Proof.
  cbv zeta. revert w. induction submissions as [|o l IH]; intros w; [done|].
  unfold after_options_rounds in *. cbn [foldl].
  destruct (IH (async_step_user_options o w).2) as [-> ->].
  by destruct (options_step_keeps_account o w) as (-> & ->).
Qed.

(** What an entry created by the options step is made of. *)
Lemma options_step_created user_options w t d o w' :
  async_step_user_options user_options w = (inr (CreateEntry t d o), w') →
  t = match client (self w) with
      | Some c => VStr (nickname c)
      | None => dict_get (_data (self w)) CONF_USERNAME
      end
  ∧ d = _data (self w) ∧ o = user_options.
Proof.
  unfold async_step_user_options.
  destruct user_options as [opts|]; [|done].
  destruct (dict_truthy (Some opts)); [|done].
  change (default ∅ (Some opts)) with opts.
  unfold mbind, Py_bind, mret, Py_ret, get_self, put_self.
  cbn beta iota delta [self hass cloud_calls _options _data client].
  destruct (_ || _); [|done]. by intros [= <- <- <- <-].
Qed.

(** The credential step goes on to the options step only after a
    successful login without a device conflict. *)
Lemma user_step_proceeds w ui E P w1 :
  async_step_user cloud ui w = (inr (ShowForm "user_options" E P), w1) →
  ∃ user_input c0 c,
    ui = Some user_input
    ∧ authenticate cloud user_input = inr c0 ∧ update_sites cloud c0 = inr c
    ∧ returned (async_check_and_remove_devices (hass w) user_input
                  (devices c ∪ sites c) None) = None
    ∧ client (self w1) = Some c
    ∧ _data (self w1)
      = <[EXAMPLESFOLDER := VStr (examplesfolder (self w))]> user_input.
Proof.
  unfold async_step_user.
  destruct (dict_truthy ui) eqn:Hui.
  2:{ unfold mbind, Py_bind, mret, Py_ret. intros Heq. by simplify_eq. }
  destruct ui as [user_input|]; [|done].
  change (default ∅ (Some user_input)) with user_input.
  destruct (negb _).
  { unfold mbind, Py_bind, mret, Py_ret. intros Heq. by simplify_eq. }
  unfold try_except, lower_method, async_set_unique_id,
    _abort_if_unique_id_configured, _authenticate_client, client_update_sites,
    check_and_remove_devices, async_step_user_options,
    log_call, lift_result, get_self, get_hass, put_self, put_registry, raise.
  unfold mbind, Py_bind, mret, Py_ret.
  cbn beta iota delta [self hass cloud_calls dict_truthy].
  destruct (dict_get_default user_input CONF_USERNAME (VStr "")) as [| | |s|];
    try (intros Heq; rewrite handle_exception_spec in Heq; by simplify_eq).
  destruct (list_find _ _) as [[i e]|] eqn:Hfind;
    cbn beta iota delta
      [mbind option_bind self hass cloud_calls flow_unique_id client].
  { apply list_find_Some in Hfind as (Hin%list_elem_of_lookup_2 & He & _).
    rewrite bool_decide_eq_true_2 by (apply Exists_exists; eauto).
    intros Heq; rewrite handle_exception_spec in Heq; by simplify_eq. }
  destruct (authenticate cloud user_input) as [exc|c0] eqn:Hauth;
    cbn beta iota delta [self hass cloud_calls client].
  { intros Heq; rewrite handle_exception_spec in Heq; by simplify_eq. }
  destruct (update_sites cloud c0) as [exc|c] eqn:Hupd;
    cbn beta iota delta [self hass cloud_calls client].
  { intros Heq; rewrite handle_exception_spec in Heq; by simplify_eq. }
  destruct (returned _) as [conflict|] eqn:Hret;
    cbn beta iota delta [self hass cloud_calls client].
  { intros Heq; by simplify_eq. }
  intros Heq. simplify_eq. cbn. by exists user_input, c0, c.
Qed.

(** C7: when the credential step has gone on to the options step and,
    after any number of further calls of the options step, a call of it
    creates the entry, then the title is the display name of the client the
    step authenticated, the data is the submitted credential input with the
    examples folder added under its key, and the options are the bag of
    that call. On a handler that holds no client the title is the username
    stored in the data. *)
Theorem created_entry_contents :
  (∀ w ui E P w1 submissions opts t d o w2,
     async_step_user cloud ui w = (inr (ShowForm "user_options" E P), w1) →
     async_step_user_options opts (after_options_rounds submissions w1)
     = (inr (CreateEntry t d o), w2) →
     ∃ user_input c0 c,
       ui = Some user_input
       ∧ authenticate cloud user_input = inr c0 ∧ update_sites cloud c0 = inr c
       ∧ t = VStr (nickname c)
       ∧ d = <[EXAMPLESFOLDER := VStr (examplesfolder (self w))]> user_input
       ∧ o = opts)
  ∧ (∀ w opts t d o w2,
       client (self w) = None →
       async_step_user_options opts w = (inr (CreateEntry t d o), w2) →
       t = dict_get (_data (self w)) CONF_USERNAME ∧ d = _data (self w)
       ∧ o = opts).
Proof.
  split.
  - intros w ui E P w1 submissions opts t d o w2 Huser Hopts.
    apply user_step_proceeds in Huser
      as (user_input & c0 & c & -> & Hauth & Hupd & _ & Hclient & Hdata).
    apply options_step_created in Hopts as (-> & -> & ->).
    destruct (options_rounds_keep_account submissions w1) as [-> ->].
    rewrite Hclient, Hdata. by exists user_input, c0, c.
  - intros w opts t d o w2 Hnone Hopts.
    apply options_step_created in Hopts as (-> & -> & ->). by rewrite Hnone.
Qed.

End FlowFacts.

(* ===================================================================== *)
(** ** The properties on the example data *)
(* ===================================================================== *)

Section Examples.
#[local] Existing Instance example_runtime.
#[local] Existing Instance upstream_const.
#[local] Existing Instance upstream_categories.
#[local] Existing Instance upstream_types.

(** Decides a closed decidable proposition by evaluation. *)
Ltac by_evaluation := apply (bool_decide_unpack _); vm_compute; done.

Lemma expansion_adds_device_types_witness :
  let ex : gset string := {[ "solarbank_cutoff"; "device_auto_upgrade" ]} in
  let expanded := excluded_set (expand_excluded (Some ex)) in
  (solarbank_cutoff ∈ ex ∧ device_auto_upgrade ∈ ex)
  ∧ SOLARBANK ∈ expanded ∧ INVERTER ∈ expanded ∧ PPS ∈ expanded
  ∧ POWERPANEL ∈ expanded.
Proof.
  cbv zeta.
  assert (Hcut : solarbank_cutoff
                 ∈ ({[ "solarbank_cutoff"; "device_auto_upgrade" ]} : gset string))
    by by_evaluation.
  assert (Hupg : device_auto_upgrade
                 ∈ ({[ "solarbank_cutoff"; "device_auto_upgrade" ]} : gset string))
    by by_evaluation.
  split; [by split|].
  exact (proj2 (expansion_adds_device_types
                  {[ "solarbank_cutoff"; "device_auto_upgrade" ]}) Hupg).
Defined.

(** C5, as stated, fails on the set with the one tag [solarbank_energy]:
    its expansion holds the solarbank device type, which implies the
    system device type, but not the system device type; expanding it again
    adds it. *)
Lemma expansion_not_idempotent :
  let once := expand_excluded (Some {[ "solarbank_energy" ]}) in
  expand_excluded once ≠ once
  ∧ SOLARBANK ∈ excluded_set once
  ∧ SYSTEM ∉ excluded_set once.
Proof.
  cbv zeta. split; [|split].
  - intros Heq.
    apply (f_equal (λ o, bool_decide (SYSTEM ∈ excluded_set o))) in Heq.
    vm_compute in Heq. discriminate.
  - by_evaluation.
  - intros Hin. apply (bool_decide_pack _) in Hin. vm_compute in Hin. done.
Qed.

Lemma expansion_single_pass_witness :
  let once := expand_excluded (Some {[ "solarbank_energy" ]}) in
  let twice := expand_excluded once in
  tags_distinct
  ∧ excluded_set twice ⊆ excluded_set once ∪ {[ SYSTEM ]}
  ∧ expand_excluded twice = twice.
Proof.
  cbv zeta.
  assert (Hd : tags_distinct) by (unfold tags_distinct; by_evaluation).
  split; [done|].
  exact (proj2 (proj2 (proj2
           (expansion_single_pass Hd (Some {[ "solarbank_energy" ]}))))).
Defined.

Lemma scan_order_two_accounts :
  scan_order hass_two_accounts
  = [(entry_alice, device_B); (entry_bob, device_X)].
Proof. by vm_compute. Qed.

Lemma scan_order_alice :
  scan_order hass_alice
  = [(entry_alice, device_A); (entry_alice, device_B); (entry_alice, device_C)].
Proof. by vm_compute. Qed.

Lemma conflict_is_first_match_witness :
  let r := async_check_and_remove_devices
             hass_two_accounts input_alice apidata_X None in
  candidate_username input_alice ≠ ""
  ∧ returned r = Some entry_bob
  ∧ examined (scan_end r) = [("e1", "devB"); ("e2", "devX")].
Proof.
  cbv zeta.
  assert (Hu : candidate_username input_alice ≠ "")
    by (intros Heq; vm_compute in Heq; discriminate).
  split; [done|].
  refine (proj2 (conflict_is_first_match
                   hass_two_accounts input_alice apidata_X None Hu)
            [(entry_alice, device_B)] (entry_bob, device_X) [] _ _ _).
  - by vm_compute.
  - constructor; [|constructor]. intros [Hne _]. apply Hne. by vm_compute.
  - split.
    + intros Heq. vm_compute in Heq. discriminate.
    + exists "SX". split; [done|]. by_evaluation.
Defined.

Lemma same_account_devices_pruned_witness :
  let r := async_check_and_remove_devices
             hass_alice input_alice apidata_A_C (Some {[ "inverter" ]}) in
  Forall (λ p, ¬ cross_account_conflict
                   (candidate_username input_alice) apidata_A_C p)
         (scan_order hass_alice)
  ∧ returned r = None
  ∧ (obsolete_user_devs (scan_end r)).*1 = ["devB"; "devC"]
  ∧ removed r = obsolete_user_devs (scan_end r)
  ∧ registry_after r = [device_A].
Proof.
  cbv zeta.
  assert (Hno : Forall (λ p, ¬ cross_account_conflict
                               (candidate_username input_alice) apidata_A_C p)
                       (scan_order hass_alice)).
  { rewrite scan_order_alice.
    repeat constructor; intros [[_ Hne] _]; apply Hne; by vm_compute. }
  split; [done|].
  destruct (same_account_devices_pruned
              hass_alice input_alice apidata_A_C (Some {[ "inverter" ]}) Hno)
    as (Hret & Hrem & _ & _).
  split; [exact Hret|]. split; [by vm_compute|]. split; [exact Hrem|].
  by vm_compute.
Defined.

(** C4, as stated, fails when Alice's absent device B is scanned before
    Bob's device X, which the fetched data holds: B is marked, the routine
    returns Bob's entry, and B is neither removed nor logged. *)
Lemma marked_device_not_removed :
  ¬ every_marked_removed
      (async_check_and_remove_devices
         hass_two_accounts input_alice apidata_X None).
Proof.
  intros Hall. destruct (Hall "devB") as [Hin _].
  - by_evaluation.
  - apply (bool_decide_pack _) in Hin. vm_compute in Hin. done.
Qed.

Lemma removal_only_after_completed_scan_witness :
  let r1 := async_check_and_remove_devices
              hass_alice input_alice apidata_A_C (Some {[ "inverter" ]}) in
  let r2 := async_check_and_remove_devices
              hass_two_accounts input_alice apidata_X None in
  (returned r1 = None ∧ removed r1 = obsolete_user_devs (scan_end r1))
  ∧ (is_Some (returned r2) ∧ removed r2 = []
     ∧ registry_after r2 = device_registry hass_two_accounts).
Proof.
  cbv zeta. split.
  - assert (Hnone : returned (async_check_and_remove_devices
                                hass_alice input_alice apidata_A_C
                                (Some {[ "inverter" ]})) = None)
      by by vm_compute.
    split; [done|].
    exact (proj1 (proj1 (removal_only_after_completed_scan
                           hass_alice input_alice apidata_A_C
                           (Some {[ "inverter" ]})) Hnone)).
  - assert (Hsome : is_Some (returned (async_check_and_remove_devices
                                         hass_two_accounts input_alice
                                         apidata_X None)))
      by (eexists; by vm_compute).
    split; [done|].
    exact (proj2 (removal_only_after_completed_scan
                    hass_two_accounts input_alice apidata_X None) Hsome).
Defined.

Lemma empty_username_prunes_every_account_witness :
  let r := async_check_and_remove_devices
             hass_two_accounts input_no_username ∅ None in
  truthy (dict_get input_no_username CONF_USERNAME) = false
  ∧ returned r = None
  ∧ examined (scan_end r) = [("e1", "devB"); ("e2", "devX")]
  ∧ (removed r).*1 = ["devB"; "devX"]
  ∧ registry_after r = [].
Proof.
  cbv zeta.
  assert (Hfalsy : truthy (dict_get input_no_username CONF_USERNAME) = false)
    by by vm_compute.
  split; [done|].
  destruct (empty_username_prunes_every_account
              hass_two_accounts input_no_username ∅ None Hfalsy)
    as (Hret & Hex & _).
  split; [exact Hret|]. split; [by rewrite Hex, scan_order_two_accounts|].
  split; by vm_compute.
Defined.

(** C6 at a concrete submission: Alice's account is configured, the
    username is submitted in another letter case, the terms are accepted. *)
Lemma configured_username_shows_form_witness :
  ∃ w',
    async_step_user cloud_ok (Some input_alice) world_two_accounts
    = (inr (ShowForm "user" {[ "base" := "unknown" ]}
              (<[ERROR_DETAIL :=
                   "Exception <class 'homeassistant.data_entry_flow.AbortFlow'>: Flow aborted: already_configured"]>
                 {[ TERMS_LINK := TC_LINK ]})), w')
    ∧ cloud_calls w' = cloud_calls world_two_accounts
    ∧ hass w' = hass world_two_accounts.
Proof.
  apply (configured_username_shows_form cloud_ok world_two_accounts
           input_alice "A@x.com").
  - by vm_compute.
  - by vm_compute.
  - apply Exists_cons_hd. by vm_compute.
Defined.

Lemma failed_login_redisplays_form_witness :
  ∃ w',
    async_step_user cloud_rejecting (Some input_carol) world_two_accounts
    = (inr (ShowForm "user" {[ "base" := "auth" ]}
              (<[ERROR_DETAIL := "Invalid credentials"]>
                 {[ TERMS_LINK := TC_LINK ]})), w')
    ∧ hass w' = hass world_two_accounts.
Proof.
  refine (proj1 (failed_login_redisplays_form cloud_rejecting world_two_accounts
                   input_carol "Carol@x.com" exc_bad_password _ _ _ _)).
  - by vm_compute.
  - by vm_compute.
  - repeat constructor; intros Heq; vm_compute in Heq; discriminate.
  - by left.
Defined.

Lemma test_folder_required_witness :
  options_testmode_no_folder ≠ ∅
  ∧ async_step_init (Some options_testmode_no_folder)
    = ShowForm "init" {[ TESTFOLDER := "folder_invalid" ]} ∅
  ∧ async_step_init (Some options_default)
    = CreateEntry (VStr "") options_default None.
Proof.
  assert (Hne1 : options_testmode_no_folder ≠ ∅).
  { intros Heq. apply (f_equal (λ m : PyDict, m !! "testmode")) in Heq.
    vm_compute in Heq. discriminate. }
  assert (Hne2 : options_default ≠ ∅).
  { intros Heq. apply (f_equal (λ m : PyDict, m !! "exclude")) in Heq.
    vm_compute in Heq. discriminate. }
  split; [done|]. split.
  - refine (proj2 (proj1 (test_folder_required world_two_accounts
                            options_testmode_no_folder Hne1) _)).
    by vm_compute.
  - refine (proj2 (proj2 (test_folder_required world_two_accounts
                            options_default Hne2) _)).
    by vm_compute.
Defined.

Lemma created_entry_contents_witness :
  let w1 := (async_step_user cloud_ok (Some input_carol) world_two_accounts).2 in
  async_step_user cloud_ok (Some input_carol) world_two_accounts
  = (inr (ShowForm "user_options" ∅ ∅), w1)
  ∧ (async_step_user_options (Some options_default) w1).1
    = inr (CreateEntry (VStr "Carol")
             (<["examples" :=
                  VStr "/config/custom_components/anker_solix/examples"]>
                input_carol)
             (Some options_default))
  ∧ ∃ c, update_sites cloud_ok client_carol = inr c
         ∧ VStr "Carol" = VStr (nickname c).
Proof.
  cbv zeta.
  assert (Huser :
    async_step_user cloud_ok (Some input_carol) world_two_accounts
    = (inr (ShowForm "user_options" ∅ ∅),
       (async_step_user cloud_ok (Some input_carol) world_two_accounts).2))
    by by vm_compute.
  assert (Hopts :
    async_step_user_options (Some options_default)
      (after_options_rounds []
         (async_step_user cloud_ok (Some input_carol) world_two_accounts).2)
    = (inr (CreateEntry (VStr "Carol")
              (<["examples" :=
                   VStr "/config/custom_components/anker_solix/examples"]>
                 input_carol)
              (Some options_default)),
       (async_step_user_options (Some options_default)
          (async_step_user cloud_ok (Some input_carol) world_two_accounts).2).2))
    by by vm_compute.
  split; [exact Huser|]. split; [by vm_compute|].
  destruct (proj1 (created_entry_contents cloud_ok) _ _ _ _ _ _ _ _ _ _ _
              Huser Hopts)
    as (user_input & c0 & c & Hin & Hauth & Hupd & Ht & _ & _).
  exists c. split; [|exact Ht].
  clear Huser Hopts. unfold cloud_ok in Hauth. cbn [authenticate] in Hauth.
  injection Hauth as <-. exact Hupd.
Defined.

End Examples.

(* ===================================================================== *)
(** * Further properties *)
(* ===================================================================== *)

(* ===================================================================== *)
(** ** More on the exclusion-set expansion *)
(* ===================================================================== *)

Lemma disjoint_union_parts (A B ex : gset string) :
  (A ∪ B) ∩ ex = ∅ → A ∩ ex = ∅ ∧ B ∩ ex = ∅.
Proof. set_solver. Qed.

Section ExpansionMore.
Context {cats : ApiCategories} {types : SolixDeviceType}.

Lemma expand_categories_bound (ex : gset string) :
  expand_categories ex ⊆ ex ∪ {[ SYSTEM ]} ∪ managed_device_types.
Proof.
  unfold expand_categories, managed_device_types.
  repeat case_decide; set_solver.
Qed.

Lemma expand_categories_mono (ex ex' : gset string) :
  ex ⊆ ex' → expand_categories ex ⊆ expand_categories ex'.
Proof.
  intros Hsub. rewrite !expand_categories_rules. unfold expand_by_rules. cbv zeta.
  set (a1 := if decide (system_rule ex) then ex ∪ {[SYSTEM]} else ex).
  set (b1 := if decide (system_rule ex') then ex' ∪ {[SYSTEM]} else ex').
  assert (H1 : a1 ⊆ b1).
  { subst a1 b1. destruct (decide (system_rule ex)) as [Hs|Hs].
    - rewrite decide_True by (by eapply system_rule_mono). set_solver.
    - case_decide; set_solver. }
  set (a2 := if decide (solarbank_rule a1) then a1 ∪ {[SOLARBANK]} else a1).
  set (b2 := if decide (solarbank_rule b1) then b1 ∪ {[SOLARBANK]} else b1).
  assert (H2 : a2 ⊆ b2).
  { subst a2 b2. destruct (decide (solarbank_rule a1)) as [Hs|Hs].
    - rewrite decide_True by (by eapply solarbank_rule_mono). set_solver.
    - case_decide; set_solver. }
  destruct (decide (device_auto_upgrade ∈ a2)) as [Hu|Hu].
  - rewrite decide_True by set_solver. set_solver.
  - case_decide; set_solver.
Qed.

Lemma expand_categories_no_trigger (ex : gset string) :
  (system_subcategories ∪ solarbank_subcategories ∪ device_subcategories)
  ∩ ex = ∅ →
  expand_categories ex = ex.
Proof.
  intros [[Hsys Hsb]%disjoint_union_parts Hdev]%disjoint_union_parts.
  apply expand_categories_closed. repeat split.
  - by intros Hr%system_rule_fires.
  - by intros Hr%solarbank_rule_fires.
  - by intros Hr%device_rule_fires.
Qed.

(** X1: the expansion keeps every submitted tag and adds nothing but the
    five device types (system, solarbank, inverter, PPS, powerpanel); a
    missing set stays missing and an empty set stays empty. *)
Theorem expansion_adds_only_device_types (excluded : option (gset string)) :
  let expanded := expand_excluded excluded in
  excluded_set excluded ⊆ excluded_set expanded
  ∧ excluded_set expanded
    ⊆ excluded_set excluded
      ∪ {[ SYSTEM; SOLARBANK; INVERTER; PPS; POWERPANEL ]}
  ∧ (expanded = None ↔ excluded = None)
  ∧ (excluded_set expanded = ∅ ↔ excluded_set excluded = ∅).
Proof.
  cbv zeta. rewrite excluded_set_expand. repeat split.
  - apply expand_categories_extensive.
  - pose proof (expand_categories_bound (excluded_set excluded)) as Hb.
    unfold managed_device_types in Hb. set_solver.
  - destruct excluded as [ex|]; [|done]. cbn. by case_decide.
  - by intros ->.
  - pose proof (expand_categories_extensive (excluded_set excluded)). set_solver.
  - intros ->. apply expand_categories_empty.
Qed.

(** X2: the expansion is monotone: excluding more tags never shrinks the
    expanded set. *)
Theorem expansion_is_monotone (excluded excluded' : option (gset string)) :
  excluded_set excluded ⊆ excluded_set excluded' →
  excluded_set (expand_excluded excluded)
  ⊆ excluded_set (expand_excluded excluded').
Proof. rewrite !excluded_set_expand. apply expand_categories_mono. Qed.

(** X3: an exclusion set that holds none of the ten tags the three rules
    test is returned unchanged. *)
Theorem expansion_without_trigger_unchanged (excluded : option (gset string)) :
  (system_subcategories ∪ solarbank_subcategories ∪ device_subcategories)
  ∩ excluded_set excluded = ∅ →
  expand_excluded excluded = excluded.
Proof.
  intros Hdis. destruct excluded as [ex|]; [|done]. cbn in *.
  case_decide; [|done]. by rewrite expand_categories_no_trigger.
Qed.

End ExpansionMore.

(* ===================================================================== *)
(** ** More on the device reconciliation routine *)
(* ===================================================================== *)

Lemma filter_nil_keys {A} (f : A → string) (l : list A) :
  filter (λ d, f d ∉ ([] : list string)) l = l.
Proof.
  induction l as [|d l IH]; [done|].
  rewrite filter_cons_True by apply not_elem_of_nil. by f_equal.
Qed.

Lemma elem_of_upto_first {A} (P : A → bool) (l : list A) x :
  x ∈ upto_first P l → x ∈ l.
Proof.
  induction l as [|y l IH]; [done|]. cbn.
  destruct (P y); rewrite !elem_of_cons; [rewrite elem_of_nil|]; naive_solver.
Qed.

Lemma pairs_of_filtered {A B} (e : A) (P Q : B → Prop)
    `{∀ d, Decision (P d)} `{∀ d, Decision (Q d)}
    `{∀ p : A * B, Decision (Q p.2)} (l : list B) :
  (λ d, (e, d)) <$> filter P (filter Q l)
  = filter (λ p, Q p.2) ((λ d, (e, d)) <$> filter P l).
Proof.
  induction l as [|d l IH]; [done|].
  destruct (decide (Q d)) as [Hq|Hq]; destruct (decide (P d)) as [Hp|Hp].
  - rewrite (filter_cons_True Q), !(filter_cons_True P) by done.
    rewrite !fmap_cons, filter_cons_True by done. by f_equal.
  - rewrite (filter_cons_True Q), !(filter_cons_False P) by done. done.
  - rewrite (filter_cons_False Q), (filter_cons_True P) by done.
    rewrite fmap_cons, filter_cons_False by done. done.
  - rewrite (filter_cons_False Q), (filter_cons_False P) by done. done.
Qed.

(** The scan order after the devices with the ids [keys] left the
    registry. *)
Lemma scan_order_without h (keys : list string) :
  scan_order
    (with_registry h (filter (λ d, dr.id d ∉ keys) (device_registry h)))
  = filter (λ p, dr.id p.2 ∉ keys) (scan_order h).
Proof.
  unfold scan_order, with_registry. cbn [async_entries device_registry].
  induction (async_entries h) as [|e es IH]; [done|].
  cbn [mbind list_bind]. rewrite filter_app, IH. f_equal.
  unfold dr.async_entries_for_config_entry.
  apply (pairs_of_filtered e _ (λ d, dr.id d ∉ keys)).
Qed.

Lemma NoDup_encounter_from seen ids :
  NoDup seen →
  NoDup (foldl (λ (seen : list string) k,
                  if decide (k ∈ seen) then seen else seen ++ [k]) seen ids).
Proof.
  revert seen. induction ids as [|k ids IH]; intros seen Hnd; [done|].
  cbn. apply IH. case_decide; [done|].
  apply NoDup_app. repeat split; [done| |apply NoDup_singleton].
  intros x Hx Hx'%list_elem_of_singleton. by subst.
Qed.

Lemma scan_order_registered h e d :
  (e, d) ∈ scan_order h → d ∈ device_registry h.
Proof.
  intros [_ Hd]%elem_of_scan_order.
  unfold dr.async_entries_for_config_entry in Hd.
  by apply list_elem_of_filter in Hd as [_ Hd].
Qed.

Section ReconciliationMore.
Context {rt : PyRuntime} {const : Const}.
Context {cats : ApiCategories} {types : SolixDeviceType}.

Lemma NoDup_mark_all_keys pairs : NoDup (mark_all pairs []).*1.
Proof. rewrite mark_all_keys. apply NoDup_encounter_from, NoDup_nil_2. Qed.

Lemma marked_key_origin pairs k :
  k ∈ (mark_all pairs []).*1 → ∃ p, p ∈ pairs ∧ dr.id p.2 = k.
Proof.
  rewrite mark_all_keys, elem_of_encounter_from, elem_of_nil, list_elem_of_fmap.
  intros [[]|(p & -> & Hin)]. eauto.
Qed.

(** A new account, whose unique id no entry has, gets nothing removed. *)
Lemma new_account_keeps_registry h ui apidata excluded :
  candidate_username ui ≠ "" →
  Forall (λ entry, unique_id entry ≠ Some (candidate_username ui))
         (async_entries h) →
  registry_after (async_check_and_remove_devices h ui apidata excluded)
  = device_registry h.
Proof.
  intros Hu Hnew. rewrite reconciled_spec. cbv zeta.
  destruct (head _) as [p|]; cbn [registry_after]; [done|].
  assert (Hnil : filter (λ p, is_marked (candidate_username ui) apidata
                                (expand_excluded excluded) p)
                   (upto_first (is_conflict (candidate_username ui) apidata)
                      (scan_order h)) = []).
  { destruct (filter _ _) as [|[e d] l] eqn:Hf; [done|]. exfalso.
    assert (Hp : (e, d) ∈ (e, d) :: l) by left. rewrite <- Hf in Hp.
    apply list_elem_of_filter in Hp as [Hm Hin].
    apply elem_of_upto_first, elem_of_scan_order in Hin as [He _].
    apply is_marked_same_account in Hm as [Hsame _]. apply Hsame.
    split; [done|]. rewrite Forall_forall in Hnew. by apply Hnew. }
  rewrite Hnil. apply filter_nil_keys.
Qed.

(** X4: the routine only deletes. The registry it leaves is a sublist of
    the one it found; every device id it removes is the id of a registered
    device, is removed once, and is the id of no device afterwards. *)
Theorem removals_hit_registered_devices_once h ui apidata excluded :
  let r := async_check_and_remove_devices h ui apidata excluded in
  NoDup (removed r).*1
  ∧ (∀ k, k ∈ (removed r).*1 →
          k ∈ dr.id <$> device_registry h ∧ k ∉ dr.id <$> registry_after r)
  ∧ registry_after r `sublist_of` device_registry h.
Proof.
  cbv zeta. rewrite reconciled_spec. cbv zeta.
  destruct (head _) as [p|]; cbn [removed registry_after].
  - split; [apply NoDup_nil_2|]. split; [by intros k Hk%elem_of_nil|done].
  - split; [apply NoDup_mark_all_keys|]. split; [|apply sublist_filter].
    intros k Hk. split.
    + apply marked_key_origin in Hk as ([e d] & Hin & <-).
      apply list_elem_of_filter in Hin as [_ Hin].
      apply elem_of_upto_first, scan_order_registered in Hin.
      apply list_elem_of_fmap. eauto.
    + intros (d & -> & Hd)%list_elem_of_fmap.
      by apply list_elem_of_filter in Hd as [Hn _].
Qed.

(** X5: a registered device stays in the registry when every entry of the
    domain that a device with its id is registered for belongs to another
    account than the candidate's. *)
Theorem other_accounts_devices_kept h ui apidata excluded d :
  let u := candidate_username ui in
  let r := async_check_and_remove_devices h ui apidata excluded in
  d ∈ device_registry h →
  (∀ e d', (e, d') ∈ scan_order h → dr.id d' = dr.id d → different_account u e) →
  d ∈ registry_after r.
Proof.
  cbv zeta. intros Hd Hother. rewrite reconciled_spec. cbv zeta.
  destruct (head _) as [p|]; cbn [registry_after]; [done|].
  apply list_elem_of_filter. split; [|done].
  intros ([e d'] & Hin & Hid)%marked_key_origin.
  apply list_elem_of_filter in Hin as [Hm Hin].
  apply elem_of_upto_first in Hin. cbn in Hid.
  apply is_marked_same_account in Hm as [Hsame _].
  apply Hsame. by eapply Hother.
Qed.

(** X6: after a call that returned nothing, a second call with the same
    input on the registry the first one left returns nothing, removes
    nothing and leaves that registry as it is. *)
Theorem reconciliation_is_idempotent h ui apidata excluded :
  let r := async_check_and_remove_devices h ui apidata excluded in
  let r' := async_check_and_remove_devices
              (with_registry h (registry_after r)) ui apidata excluded in
  returned r = None →
  returned r' = None ∧ removed r' = [] ∧ registry_after r' = registry_after r.
Proof.
  cbv zeta. intros Hnone.
  assert (Hno : Forall (λ p, ¬ is_conflict (candidate_username ui) apidata p)
                    (scan_order h)).
  { apply (head_filter_None
             (λ p, is_conflict (candidate_username ui) apidata p)).
    rewrite reconciled_spec in Hnone. cbv zeta in Hnone. by destruct (head _). }
  rewrite (completed_scan_spec h) by done. cbn [registry_after].
  set (marked := mark_all _ []).
  set (h' := with_registry h _).
  assert (Hso : scan_order h'
                = filter (λ p, dr.id p.2 ∉ marked.*1) (scan_order h)).
  { subst h'. apply scan_order_without. }
  assert (Hno' : Forall (λ p, ¬ is_conflict (candidate_username ui) apidata p)
                    (scan_order h')).
  { rewrite Hso. apply Forall_forall. intros p [_ Hp]%list_elem_of_filter.
    rewrite Forall_forall in Hno. by apply Hno. }
  rewrite (completed_scan_spec h') by done.
  assert (Hnil : filter (λ p, is_marked (candidate_username ui) apidata
                                (expand_excluded excluded) p) (scan_order h')
                 = []).
  { rewrite Hso.
    destruct (filter _ (filter _ _)) as [|p l] eqn:Hf; [done|]. exfalso.
    assert (Hp : p ∈ p :: l) by left. rewrite <- Hf in Hp.
    apply list_elem_of_filter in Hp as [Hm Hin].
    apply list_elem_of_filter in Hin as [Hn Hin]. apply Hn.
    subst marked. rewrite mark_all_keys, elem_of_encounter_from. right.
    apply list_elem_of_fmap. exists p. split; [done|].
    by apply list_elem_of_filter. }
  rewrite Hnil. cbn. split; [done|]. split; [done|].
  apply filter_nil_keys.
Qed.

(** X7: excluding a subcategory removes the parent device. When no
    cross-account conflict exists, a device of the candidate's account
    recorded as a solarbank is removed if the exclusion set holds a
    solarbank subcategory tag, and a device recorded as solarbank,
    inverter, PPS or powerpanel is removed if it holds the auto-upgrade
    tag, although the set does not hold the device type itself. *)
Theorem excluded_subcategory_removes_device h ui apidata ex e d t :
  let u := candidate_username ui in
  let r := async_check_and_remove_devices h ui apidata (Some ex) in
  Forall (λ p, ¬ cross_account_conflict u apidata p) (scan_order h) →
  (e, d) ∈ scan_order h → ¬ different_account u e →
  recorded_type (dr.serial_number d) apidata = VStr t →
  ((solarbank_energy ∈ ex ∨ solarbank_cutoff ∈ ex ∨ solarbank_fittings ∈ ex
    ∨ solarbank_solar_info ∈ ex) ∧ t = SOLARBANK)
  ∨ (device_auto_upgrade ∈ ex
     ∧ (t = SOLARBANK ∨ t = INVERTER ∨ t = PPS ∨ t = POWERPANEL)) →
  dr.id d ∈ (removed r).*1 ∧ d ∉ registry_after r.
Proof.
  cbv zeta. intros Hno Hin Hsame Hty Hrule.
  assert (Hex : t ∈ excluded_set (expand_excluded (Some ex))).
  { rewrite excluded_set_expand. cbn [excluded_set default from_option id].
    destruct Hrule as [[Hsb ->]|[Hup Ht]].
    - by apply expand_categories_solarbank.
    - apply (expand_categories_managed _ Hup). unfold managed_device_types.
      set_solver. }
  assert (Hk : dr.id d ∈ (mark_all
                  (filter (λ p, is_marked (candidate_username ui) apidata
                                  (expand_excluded (Some ex)) p)
                          (scan_order h)) []).*1).
  { apply elem_of_marked_keys. exists e, d. repeat split; try done.
    right. by exists t. }
  rewrite completed_scan_spec.
  - cbn [removed registry_after]. split; [done|].
    by intros [Hn _]%list_elem_of_filter.
  - eapply Forall_impl; [done|]. intros p Hp Hc. by apply Hp, is_conflict_cross.
Qed.

End ReconciliationMore.

(* ===================================================================== *)
(** ** More on the setup wizard *)
(* ===================================================================== *)

Ltac unfold_user_step :=
  unfold async_step_user, try_except, lower_method, async_set_unique_id,
    _abort_if_unique_id_configured, _authenticate_client, client_update_sites,
    check_and_remove_devices, async_step_user_options,
    log_call, lift_result, get_self, get_hass, put_self, put_registry, raise;
  unfold mbind, Py_bind, mret, Py_ret.

Ltac step_world :=
  cbn beta iota delta
    [mbind option_bind self hass cloud_calls flow_unique_id client dict_truthy
     fst snd async_entries device_registry].

(** Splits a goal about [async_step_user cloud ui w] into the branches of
    the step, one goal for each way through it. *)
Ltac user_step_cases cloud ui w :=
  unfold_user_step;
  let Hui := fresh "Hui" in
  destruct (dict_truthy ui) eqn:Hui;
  [ destruct ui as [?user_input|]; [|discriminate Hui];
    match goal with
    | |- context [default ∅ (Some ?i)] => change (default ∅ (Some i)) with i
    end;
    let Hterms := fresh "Hterms" in
    destruct (negb (truthy (dict_get_default _ ACCEPT_TERMS (VStr ""))))
      eqn:Hterms;
    [ | let Hname := fresh "Hname" in
        destruct (dict_get_default _ CONF_USERNAME (VStr ""))
          as [| | |?u|] eqn:Hname;
        [ | | |
          let Hfind := fresh "Hfind" in
          step_world;
          match goal with
          | |- context [@list_find ?A ?P ?D ?l] =>
              destruct (@list_find A P D l) as [[? ?]|] eqn:Hfind
          end; step_world;
          [ apply list_find_Some in Hfind
              as (Hfind%list_elem_of_lookup_2 & ? & _);
            rewrite bool_decide_eq_true_2 by (apply Exists_exists; eauto)
          | let Hauth := fresh "Hauth" in
            destruct (authenticate cloud _) as [?exc|?c0] eqn:Hauth;
            step_world;
            [ | let Hupd := fresh "Hupd" in
                destruct (update_sites cloud _) as [?exc|?c] eqn:Hupd;
                step_world;
                [ | let Hret := fresh "Hret" in
                    destruct (returned _) as [?conflict|] eqn:Hret;
                    step_world ] ] ]
        | ] ]
  | ];
  step_world; rewrite ?handle_exception_spec; step_world.

Section WizardMore.
Context {rt : PyRuntime} {const : Const}.
Context {cats : ApiCategories} {types : SolixDeviceType}.
Context (cloud : Cloud).

Lemma candidate_username_submitted ui u :
  dict_get_default ui CONF_USERNAME (VStr "") = VStr u → u ≠ "" →
  candidate_username ui = str_lower u.
Proof.
  unfold dict_get_default, candidate_username, dict_get, py_or.
  destruct (ui !! CONF_USERNAME) as [v|]; cbn; intros Hv Hu; simplify_eq; cbn.
  by destruct (String.eqb_spec u "").
Qed.

(** X8: a call without a submission, and a submission without the terms
    accepted, return the credential form and change nothing: no unique id
    is set, nothing is sent to the cloud, the registry is not touched. The
    second carries the error on the terms field. *)
Theorem unaccepted_terms_change_nothing w ui :
  (dict_truthy ui = false →
     async_step_user cloud ui w
     = (inr (ShowForm "user" ∅ {[ TERMS_LINK := TC_LINK ]}), w))
  ∧ (∀ user_input,
       ui = Some user_input → user_input ≠ ∅ →
       truthy (dict_get_default user_input ACCEPT_TERMS (VStr "")) = false →
       async_step_user cloud ui w
       = (inr (ShowForm "user" {[ ACCEPT_TERMS := ACCEPT_TERMS ]}
                 {[ TERMS_LINK := TC_LINK ]}), w)).
Proof.
  split.
  - intros Hf. unfold async_step_user. by rewrite Hf.
  - intros user_input -> Hne Hterms. unfold async_step_user.
    rewrite (dict_truthy_nonempty _ Hne).
    change (default ∅ (Some user_input)) with user_input.
    rewrite Hterms. cbn [negb]. by rewrite insert_empty.
Qed.

(** X9: when the login goes through and the reconciliation returns an
    entry, the step shows the credential form with [duplicate_devices] on
    the username field and the title of that entry and the submitted
    username in the placeholders; the client is kept, no data is stored,
    and the registry is as before. *)
Theorem shared_device_blocks_setup w ui u c0 c cfg_entry :
  truthy (dict_get_default ui ACCEPT_TERMS (VStr "")) = true →
  dict_get_default ui CONF_USERNAME (VStr "") = VStr u →
  Forall (λ entry, unique_id entry ≠ Some (str_lower u))
         (async_entries (hass w)) →
  authenticate cloud ui = inr c0 → update_sites cloud c0 = inr c →
  returned (async_check_and_remove_devices (hass w) ui (devices c ∪ sites c) None)
  = Some cfg_entry →
  async_step_user cloud (Some ui) w
  = (inr (ShowForm "user"
            {[ CONF_USERNAME := "duplicate_devices" ]}
            (<[SHARED_ACCOUNT := title cfg_entry]>
               (<[CONF_USERNAME := u]> {[ TERMS_LINK := TC_LINK ]}))),
     logged_in w (str_lower u) c ui).
Proof.
  intros Hterms Huser Hnew Hauth Hupd Hret.
  unfold_user_step. rewrite (truthy_get_nonempty _ _ Hterms).
  change (default ∅ (Some ui)) with ui. rewrite Hterms. cbn [negb]. rewrite Huser.
  step_world. rewrite (find_unconfigured _ _ Hnew). step_world.
  rewrite Hauth. step_world. rewrite Hupd. step_world. rewrite Hret.
  assert (Hreg : registry_after (async_check_and_remove_devices (hass w) ui
                                   (devices c ∪ sites c) None)
                 = device_registry (hass w)).
  { rewrite reconciled_spec in Hret |- *. cbv zeta in Hret |- *.
    by destruct (head _). }
  rewrite Hreg. rewrite insert_empty. unfold logged_in. cbn [py_str].
  rewrite <- app_assoc. by destruct w as [f [es reg] calls].
Qed.

(** X10: when the terms are accepted, the username is new, the login and
    the fetch go through and the reconciliation returns nothing, the step
    shows the options form without errors; the handler then holds the
    unique id, the client and the input with the examples folder as data,
    the registry is the one the reconciliation left, and exactly the two
    calls went to the cloud. *)
Theorem accepted_login_reaches_options w ui u c0 c :
  let r := async_check_and_remove_devices (hass w) ui (devices c ∪ sites c) None in
  truthy (dict_get_default ui ACCEPT_TERMS (VStr "")) = true →
  dict_get_default ui CONF_USERNAME (VStr "") = VStr u →
  Forall (λ entry, unique_id entry ≠ Some (str_lower u))
         (async_entries (hass w)) →
  authenticate cloud ui = inr c0 → update_sites cloud c0 = inr c →
  returned r = None →
  async_step_user cloud (Some ui) w
  = (inr (ShowForm "user_options" ∅ ∅),
     {| self := {| _data := <[EXAMPLESFOLDER := VStr (examplesfolder (self w))]> ui;
                   _options := _options (self w);
                   client := Some c;
                   examplesfolder := examplesfolder (self w);
                   flow_unique_id := Some (str_lower u) |};
        hass := with_registry (hass w) (registry_after r);
        cloud_calls :=
          cloud_calls w ++ [CallAuthenticate ui; CallUpdateSites] |}).
Proof.
  cbv zeta. intros Hterms Huser Hnew Hauth Hupd Hret.
  unfold_user_step. rewrite (truthy_get_nonempty _ _ Hterms).
  change (default ∅ (Some ui)) with ui. rewrite Hterms. cbn [negb]. rewrite Huser.
  step_world. rewrite (find_unconfigured _ _ Hnew). step_world.
  rewrite Hauth. step_world. rewrite Hupd. step_world. rewrite Hret.
  step_world. by rewrite <- app_assoc.
Qed.

(** X11: a username value that is not a string (the key is present, the
    value is [None], a boolean, a number or a list) makes [.lower()] raise;
    with the terms accepted the step shows the credential form with the
    catch-all error and the [AttributeError] text, and changes nothing. *)
Theorem non_string_username_is_unknown_error w ui v :
  truthy (dict_get_default ui ACCEPT_TERMS (VStr "")) = true →
  ui !! CONF_USERNAME = Some v → (∀ u, v ≠ VStr u) →
  async_step_user cloud (Some ui) w
  = (inr (ShowForm "user" {[ "base" := "unknown" ]}
            (<[ERROR_DETAIL :=
                 "Exception <class 'AttributeError'>: '" +:+ py_type_name v
                 +:+ "' object has no attribute 'lower'"]>
               {[ TERMS_LINK := TC_LINK ]})), w).
Proof.
  intros Hterms Hv Hns.
  unfold_user_step. rewrite (truthy_get_nonempty _ _ Hterms).
  change (default ∅ (Some ui)) with ui. rewrite Hterms. cbn [negb].
  assert (Hget : dict_get_default ui CONF_USERNAME (VStr "") = v)
    by (unfold dict_get_default; by rewrite Hv).
  rewrite Hget.
  destruct v as [| | |u|]; try (by destruct (Hns u));
    step_world; rewrite handle_exception_spec, insert_empty; reflexivity.
Qed.


(** X13: a call of the credential step sends the cloud nothing, or one
    authentication, or one authentication followed by one fetch of the
    site data, always for the submitted input; it never fetches without
    having authenticated in the same call. *)
Theorem user_step_cloud_calls w ui :
  ∃ l, cloud_calls (async_step_user cloud ui w).2 = cloud_calls w ++ l
       ∧ (l = []
          ∨ ∃ user_input,
              ui = Some user_input
              ∧ (l = [CallAuthenticate user_input]
                 ∨ l = [CallAuthenticate user_input; CallUpdateSites])).
Proof.
  user_step_cases cloud ui w;
    first
      [ exists []; split; [by rewrite app_nil_r|by left]
      | eexists [_]; split; [reflexivity|right; eauto]
      | eexists [_; _]; split; [by rewrite <- app_assoc|right; eauto] ].
Qed.

(** X14: unless the submitted username is a string whose lower-cased form
    is empty, the credential step leaves the entries and the device
    registry exactly as they were: in the wizard the reconciliation never
    removes a device. *)
Theorem user_step_keeps_registry w ui :
  (∀ user_input u,
     ui = Some user_input →
     dict_get_default user_input CONF_USERNAME (VStr "") = VStr u →
     str_lower u ≠ "") →
  hass (async_step_user cloud ui w).2 = hass w.
Proof.
  intros Hname'.
  user_step_cases cloud ui w; try done.
  all: assert (Hlow : str_lower u ≠ "") by (by eapply Hname').
  all: assert (Hu : u ≠ "") by (intros ->; apply Hlow, str_lower_empty).
  all: rewrite new_account_keeps_registry;
    [ by destruct w as [f [es reg] calls]
    | by rewrite (candidate_username_submitted _ u)
    | rewrite (candidate_username_submitted _ u) by done;
      exact (proj1 (list_find_None _ _) Hfind) ].
Qed.

(** X15: with the empty string as username, the terms accepted, no entry
    with the empty unique id and a login that goes through, the step goes
    on to the options form, and every registered device of every entry
    whose serial number is not in the fetched data is gone from the
    registry, whichever account it belongs to. *)
Theorem empty_username_login_prunes_all_accounts w ui c0 c e d :
  truthy (dict_get_default ui ACCEPT_TERMS (VStr "")) = true →
  dict_get_default ui CONF_USERNAME (VStr "") = VStr "" →
  Forall (λ entry, unique_id entry ≠ Some "") (async_entries (hass w)) →
  authenticate cloud ui = inr c0 → update_sites cloud c0 = inr c →
  (e, d) ∈ scan_order (hass w) →
  ¬ serial_present (devices c ∪ sites c) d →
  ∃ w', async_step_user cloud (Some ui) w
        = (inr (ShowForm "user_options" ∅ ∅), w')
        ∧ d ∉ device_registry (hass w').
Proof.
  intros Hterms Huser Hnew Hauth Hupd Hin Habs.
  assert (Hcand : candidate_username ui = "").
  { unfold candidate_username, py_or, dict_get. unfold dict_get_default in Huser.
    destruct (ui !! CONF_USERNAME) as [v|]; cbn in *; subst; cbn;
      apply str_lower_empty. }
  assert (Hno : Forall (λ p, ¬ is_conflict (candidate_username ui)
                                 (devices c ∪ sites c) p)
                       (scan_order (hass w))).
  { apply Forall_forall. intros p _ [[Hne _] _]%is_conflict_cross. by apply Hne. }
  rewrite <- str_lower_empty in Hnew.
  unfold_user_step. rewrite (truthy_get_nonempty _ _ Hterms).
  change (default ∅ (Some ui)) with ui. rewrite Hterms. cbn [negb]. rewrite Huser.
  step_world. rewrite (find_unconfigured _ _ Hnew). step_world.
  rewrite Hauth. step_world. rewrite Hupd. step_world.
  rewrite completed_scan_spec by done. step_world. cbn [returned registry_after].
  eexists. split; [reflexivity|]. cbn [hass device_registry].
  intros [Hn _]%list_elem_of_filter. apply Hn.
  apply elem_of_marked_keys. exists e, d. repeat split; try done.
  - intros [Hne _]. by apply Hne.
  - by left.
Qed.

End WizardMore.

(* ===================================================================== *)
(** ** The options schema *)
(* ===================================================================== *)

#[local] Instance string_leb_total :
  Total (λ a b : string, Is_true (String.leb a b)).
Proof.
  intros a b. destruct (String.leb_total a b) as [H|H]; rewrite H; auto.
Qed.

Lemma sort_strings_sorted l : Sorted (λ a b, String.leb a b) (sort_strings l).
Proof. apply (Sorted_merge_sort _). Qed.

Lemma sort_strings_perm l : sort_strings l ≡ₚ l.
Proof. apply merge_sort_Permutation. Qed.

Section SchemaFacts.
Context {const : Const} {oconst : OptionConst}.

(** Turns [option_keys_distinct] into the inequalities between the keys. *)
Ltac split_keys :=
  let Hk := fresh "Hk" in
  pose proof option_keys_distinct as Hk;
  repeat (apply NoDup_cons in Hk as [? Hk]);
  repeat match goal with
         | Hn : _ ∉ _ :: _ |- _ => apply not_elem_of_cons in Hn as [? Hn]
         end.

Lemma schema_keys folders entry :
  (λ item, vol.schema item.1) <$> get_options_schema folders entry = form_keys.
Proof. unfold get_options_schema, form_keys. by destruct _ALLOW_TESTMODE. Qed.

Lemma NoDup_form_keys : NoDup form_keys.
Proof.
  pose proof option_keys_distinct as Hk. unfold form_keys.
  destruct _ALLOW_TESTMODE; [done|]. rewrite app_nil_r.
  change (NoDup ([CONF_SCAN_INTERVAL; INTERVALMULT; CONF_DELAY_TIME; CONF_EXCLUDE]
                 ++ [TESTMODE; TESTFOLDER])) in Hk.
  by apply NoDup_app in Hk as [Hk _].
Qed.

Lemma shown_default_form_key folders entry key :
  key ∈ form_keys →
  shown_default (get_options_schema folders entry) key
  = Some (dict_get_default (default ∅ entry) key (hard_default folders key)).
Proof.
  split_keys. unfold form_keys, shown_default, get_options_schema, hard_default.
  destruct _ALLOW_TESTMODE; cbn [app];
    rewrite ?elem_of_cons, elem_of_nil; intros Hin; destruct_or?; try done;
    subst key; cbn; repeat case_decide; try congruence; done.
Qed.

(** X16: the options form has the four keys scan interval, multiplier,
    request delay and excluded categories, followed by test mode and test
    folder exactly when test mode is allowed, each once; for every key of
    the form the value shown is the one saved under that key in the entry
    if there is one and the hard-coded default otherwise; no other key is
    shown. *)
Theorem options_form_shows_saved_or_default folders entry :
  let schema := get_options_schema folders entry in
  (λ item, vol.schema item.1) <$> schema = form_keys
  ∧ NoDup form_keys
  ∧ (∀ key, key ∈ form_keys →
       shown_default schema key
       = Some (dict_get_default (default ∅ entry) key (hard_default folders key)))
  ∧ (∀ key, key ∉ form_keys → shown_default schema key = None).
Proof.
  cbv zeta. split; [apply schema_keys|]. split; [apply NoDup_form_keys|].
  split; [intros key; apply shown_default_form_key|].
  intros key Hout. unfold shown_default.
  destruct (list_find _ _) as [[i item]|] eqn:Hf; [|done].
  apply list_find_Some in Hf as (Hin%list_elem_of_lookup_2 & Hkey & _).
  destruct Hout. rewrite <- schema_keys with (folders := folders) (entry := entry).
  apply list_elem_of_fmap. eauto.
Qed.

(** X17: with test mode allowed the last field of the form is the test
    folder, a dropdown whose choices are the example folders sorted
    ascending, or the one empty name when there are none, so the list is
    never empty; the folder suggested is the one saved in the entry, also
    when it is no longer among the choices, and the first choice when none
    is saved. *)
Theorem test_folder_choices folders entry :
  let choices := sort_strings (match folders with [] => [""] | _ => folders end) in
  _ALLOW_TESTMODE = true →
  (∃ marker,
     last (get_options_schema folders entry)
     = Some (marker,
             selector.SelectSelector
               {| selector.options := choices;
                  selector.select_mode := Some "dropdown";
                  selector.sort := None; selector.multiple := None;
                  selector.translation_key := None |})
     ∧ vol.schema marker = TESTFOLDER
     ∧ vol.suggested_value marker
       = Some (match default ∅ entry !! TESTFOLDER with
               | Some saved => saved
               | None => VStr (default "" (head choices))
               end))
  ∧ Sorted (λ a b, String.leb a b) choices
  ∧ choices ≡ₚ match folders with [] => [""] | _ => folders end
  ∧ ∃ first, head choices = Some first ∧ first ∈ choices.
Proof.
  cbv zeta. intros Htest. split; [|split; [|split]].
  - unfold get_options_schema. rewrite Htest. eexists. split; [reflexivity|].
    split; [done|]. cbn. unfold dict_get_default. by destruct (_ !! TESTFOLDER).
  - apply sort_strings_sorted.
  - apply sort_strings_perm.
  - destruct (sort_strings _) as [|first rest] eqn:Hs.
    + pose proof (sort_strings_perm
                    (match folders with [] => [""] | _ => folders end)) as Hp.
      rewrite Hs in Hp. apply Permutation_nil_l in Hp. by destruct folders.
    + exists first. split; [done|left].
Qed.

(** X18: the form shown again after a submission, in the wizard's options
    step and in the options editor, is built from the submitted bag: every
    key of the form that the bag holds is shown with the submitted value.
    On the first call the options editor shows the saved options of the
    entry. *)
Theorem submitted_options_are_shown_again folders saved f key :
  key ∈ form_keys →
  (∀ opts v,
     opts ≠ ∅ → opts !! key = Some v →
     shown_default (user_options_data_schema folders (Some opts) f) key = Some v
     ∧ shown_default (init_data_schema folders saved (Some opts)) key = Some v)
  ∧ shown_default (init_data_schema folders saved None) key
    = Some (dict_get_default saved key (hard_default folders key)).
Proof.
  intros Hkey. split.
  - intros opts v Hne Hv.
    unfold user_options_data_schema, init_data_schema.
    rewrite (dict_truthy_nonempty _ Hne).
    change (default ∅ (Some opts)) with opts.
    rewrite shown_default_form_key by done.
    unfold dict_get_default. cbn [default from_option id]. by rewrite Hv.
  - unfold init_data_schema. cbn [dict_truthy].
    by rewrite shown_default_form_key.
Qed.

End SchemaFacts.


(* ===================================================================== *)
(** ** The further properties on the example data *)
(* ===================================================================== *)

Section MoreExamples.
#[local] Existing Instance example_runtime.
#[local] Existing Instance upstream_const.
#[local] Existing Instance upstream_categories.
#[local] Existing Instance upstream_types.
#[local] Existing Instance upstream_options.

Ltac by_evaluation := apply (bool_decide_unpack _); vm_compute; done.

Lemma expansion_is_monotone_witness :
  let small : option (gset string) := Some {[ "site_price" ]} in
  let large : option (gset string) :=
    Some {[ "site_price"; "solarbank_cutoff" ]} in
  excluded_set small ⊆ excluded_set large
  ∧ excluded_set (expand_excluded small) ⊆ excluded_set (expand_excluded large).
Proof.
  cbv zeta.
  assert (Hsub : excluded_set (Some ({[ "site_price" ]} : gset string))
                 ⊆ excluded_set
                     (Some ({[ "site_price"; "solarbank_cutoff" ]} : gset string)))
    by (cbn; set_solver).
  split; [done|]. exact (expansion_is_monotone _ _ Hsub).
Defined.

Lemma expansion_without_trigger_unchanged_witness :
  let excluded : option (gset string) := Some {[ "vehicle" ]} in
  (system_subcategories ∪ solarbank_subcategories ∪ device_subcategories)
  ∩ excluded_set excluded = ∅
  ∧ expand_excluded excluded = excluded.
Proof.
  cbv zeta.
  assert (Hdis : (system_subcategories ∪ solarbank_subcategories
                  ∪ device_subcategories)
                 ∩ excluded_set (Some ({[ "vehicle" ]} : gset string)) = ∅)
    by by_evaluation.
  split; [done|]. exact (expansion_without_trigger_unchanged _ Hdis).
Defined.

Lemma other_accounts_devices_kept_witness :
  device_X ∈ device_registry hass_two_accounts
  ∧ device_X ∈ registry_after
                 (async_check_and_remove_devices
                    hass_two_accounts input_alice ∅ None).
Proof.
  assert (Hin : device_X ∈ device_registry hass_two_accounts) by by_evaluation.
  split; [done|].
  apply (other_accounts_devices_kept hass_two_accounts input_alice ∅ None
           device_X Hin).
  intros e d' Hp Hid.
  assert (Hso : scan_order hass_two_accounts
                = [(entry_alice, device_B); (entry_bob, device_X)])
    by by vm_compute.
  rewrite Hso in Hp.
  apply elem_of_cons in Hp as [Hp|Hp]; [injection Hp as -> ->; discriminate Hid|].
  apply elem_of_cons in Hp as [Hp|Hp]; [|by apply elem_of_nil in Hp].
  injection Hp as -> ->. split; intros Heq; vm_compute in Heq; discriminate.
Defined.

Lemma reconciliation_is_idempotent_witness :
  let r := async_check_and_remove_devices
             hass_alice input_alice apidata_A_C (Some {[ "inverter" ]}) in
  let r' := async_check_and_remove_devices
              (with_registry hass_alice (registry_after r))
              input_alice apidata_A_C (Some {[ "inverter" ]}) in
  returned r = None
  ∧ (removed r).*1 = ["devB"; "devC"]
  ∧ returned r' = None ∧ removed r' = [] ∧ registry_after r' = registry_after r.
Proof.
  cbv zeta.
  assert (Hnone : returned (async_check_and_remove_devices
                              hass_alice input_alice apidata_A_C
                              (Some {[ "inverter" ]})) = None)
    by by vm_compute.
  split; [done|]. split; [by vm_compute|].
  exact (reconciliation_is_idempotent hass_alice input_alice apidata_A_C
           (Some {[ "inverter" ]}) Hnone).
Defined.

Lemma excluded_subcategory_removes_device_witness :
  let r := async_check_and_remove_devices
             hass_alice_S_I input_alice apidata_S_I
             (Some {[ "solarbank_energy" ]}) in
  recorded_type (dr.serial_number device_S) apidata_S_I = VStr "solarbank"
  ∧ dr.id device_S ∈ (removed r).*1 ∧ (device_S ∉ registry_after r)
  ∧ registry_after r = [device_I].
Proof.
  cbv zeta.
  assert (Hty : recorded_type (dr.serial_number device_S) apidata_S_I
                = VStr "solarbank") by by vm_compute.
  split; [done|].
  assert (Hso : scan_order hass_alice_S_I
                = [(entry_alice, device_S); (entry_alice, device_I)])
    by by vm_compute.
  refine ((λ H, conj (proj1 H) (conj (proj2 H) _))
            (excluded_subcategory_removes_device
               hass_alice_S_I input_alice apidata_S_I {[ "solarbank_energy" ]}
               entry_alice device_S "solarbank" _ _ _ Hty _)).
  - by vm_compute.
  - rewrite Hso. repeat constructor; intros [[_ Hne] _]; apply Hne; by vm_compute.
  - rewrite Hso. left.
  - intros [_ Hne]. apply Hne. by vm_compute.
  - left. split; [|done]. left. by_evaluation.
Defined.

Lemma unaccepted_terms_change_nothing_witness :
  input_terms_unchecked ≠ ∅
  ∧ async_step_user cloud_ok (Some input_terms_unchecked) world_two_accounts
    = (inr (ShowForm "user" {[ ACCEPT_TERMS := ACCEPT_TERMS ]}
              {[ TERMS_LINK := TC_LINK ]}), world_two_accounts).
Proof.
  assert (Hne : input_terms_unchecked ≠ ∅).
  { intros Heq. apply (f_equal (λ m : PyDict, m !! "username")) in Heq.
    vm_compute in Heq. discriminate. }
  split; [done|].
  refine (proj2 (unaccepted_terms_change_nothing cloud_ok world_two_accounts
                   (Some input_terms_unchecked)) _ eq_refl Hne _).
  by vm_compute.
Defined.

Lemma shared_device_blocks_setup_witness :
  async_step_user cloud_sharing_X (Some input_carol) world_bob
  = (inr (ShowForm "user"
            {[ CONF_USERNAME := "duplicate_devices" ]}
            (<[SHARED_ACCOUNT := "Bob"]>
               (<[CONF_USERNAME := "Carol@x.com"]> {[ TERMS_LINK := TC_LINK ]}))),
     logged_in world_bob "carol@x.com" client_with_X input_carol).
Proof.
  refine (shared_device_blocks_setup cloud_sharing_X world_bob input_carol
            "Carol@x.com" client_with_X client_with_X entry_bob _ _ _ _ _ _).
  - by vm_compute.
  - by vm_compute.
  - repeat constructor; intros Heq; vm_compute in Heq; discriminate.
  - done.
  - done.
  - by vm_compute.
Defined.

Lemma accepted_login_reaches_options_witness :
  ∃ w', async_step_user cloud_ok (Some input_carol) world_two_accounts
        = (inr (ShowForm "user_options" ∅ ∅), w')
        ∧ client (self w') = Some client_carol
        ∧ cloud_calls w' = [CallAuthenticate input_carol; CallUpdateSites].
Proof.
  eexists. split.
  - refine (accepted_login_reaches_options cloud_ok world_two_accounts
              input_carol "Carol@x.com" client_carol client_carol _ _ _ _ _ _).
    + by vm_compute.
    + by vm_compute.
    + repeat constructor; intros Heq; vm_compute in Heq; discriminate.
    + done.
    + done.
    + by vm_compute.
  - done.
Defined.

Lemma non_string_username_is_unknown_error_witness :
  async_step_user cloud_ok (Some input_username_none) world_two_accounts
  = (inr (ShowForm "user" {[ "base" := "unknown" ]}
            (<[ERROR_DETAIL :=
                 "Exception <class 'AttributeError'>: 'NoneType' object has no attribute 'lower'"]>
               {[ TERMS_LINK := TC_LINK ]})), world_two_accounts).
Proof.
  refine (non_string_username_is_unknown_error cloud_ok world_two_accounts
            input_username_none VNone _ _ _).
  - by vm_compute.
  - by vm_compute.
  - intros u Heq. discriminate.
Defined.

Lemma user_step_keeps_registry_witness :
  hass (async_step_user cloud_ok (Some input_carol) world_two_accounts).2
  = hass world_two_accounts.
Proof.
  apply (user_step_keeps_registry cloud_ok world_two_accounts (Some input_carol)).
  intros user_input u [= <-] Hname. vm_compute in Hname.
  injection Hname as <-. intros Heq. vm_compute in Heq. discriminate.
Defined.

Lemma empty_username_login_prunes_all_accounts_witness :
  ∃ w', async_step_user cloud_ok (Some input_empty_username) world_two_accounts
        = (inr (ShowForm "user_options" ∅ ∅), w')
        ∧ device_X ∉ device_registry (hass w').
Proof.
  refine (empty_username_login_prunes_all_accounts cloud_ok world_two_accounts
            input_empty_username client_carol client_carol entry_bob device_X
            _ _ _ _ _ _ _).
  - by vm_compute.
  - by vm_compute.
  - repeat constructor; intros Heq; discriminate.
  - done.
  - done.
  - by_evaluation.
  - intros (s & Hs & Hin). injection Hs as <-.
    apply (bool_decide_pack _) in Hin. vm_compute in Hin. done.
Defined.

Lemma test_folder_choices_witness :
  _ALLOW_TESTMODE = true
  ∧ Sorted (λ a b, String.leb a b) (sort_strings ["SB_b"; "INV_a"])
  ∧ sort_strings ["SB_b"; "INV_a"] = ["INV_a"; "SB_b"]
  ∧ ∃ first, head (sort_strings ["SB_b"; "INV_a"]) = Some first
             ∧ first ∈ sort_strings ["SB_b"; "INV_a"].
Proof.
  assert (Htest : _ALLOW_TESTMODE = true) by done.
  split; [done|].
  destruct (test_folder_choices ["SB_b"; "INV_a"] None Htest)
    as (_ & Hsorted & _ & Hfirst).
  split; [exact Hsorted|]. split; [by vm_compute|exact Hfirst].
Defined.

Lemma submitted_options_are_shown_again_witness :
  "scan_interval" ∈ form_keys
  ∧ shown_default
      (init_data_schema ["SB_b"; "INV_a"] options_saved
         (Some options_testmode_no_folder)) "scan_interval"
    = Some (VInt 60)
  ∧ shown_default (init_data_schema ["SB_b"; "INV_a"] options_saved None)
      "scan_interval"
    = Some (VInt 120).
Proof.
  assert (Hkey : "scan_interval" ∈ form_keys) by by_evaluation.
  split; [done|].
  destruct (submitted_options_are_shown_again ["SB_b"; "INV_a"] options_saved
              (FlowHandler_init "") "scan_interval" Hkey) as [Hagain Hfirst].
  split.
  - refine (proj2 (Hagain options_testmode_no_folder (VInt 60) _ _)).
    + intros Heq. apply (f_equal (λ m : PyDict, m !! "testmode")) in Heq.
      vm_compute in Heq. discriminate.
    + by vm_compute.
  - rewrite Hfirst. by vm_compute.
Defined.

End MoreExamples.
